(** * Chunk-ownership protocol of the distributed voxel game server

    A shallow embedding of the Go sources of the central coordinator
    ([v5/central_server.go]), of the game server (the UDP request handlers
    and their receive loop) and of the player client ([v5/player_1.go]),
    together with the shared wire types, followed by the properties of
    the ownership protocol.

    Conventions.
    - A Go [int] is a [Z]; the handlers only compare and copy integers, so
      no arithmetic can wrap.
    - A Go [string] is a [string], a slice is a [list] (the handlers never
      distinguish a nil slice from an empty one), a [map] is a [gmap].
    - A struct is a record inside a module named after the struct, so that
      [Chunk.ServerIP c] reads like [c.ServerIP].
    - Network exchanges are inputs of the handlers: an oracle tells what
      the peer answered, a trace records what the handler sent. *)

From Stdlib Require Import ZArith.
From stdpp Require Import base gmap strings list pretty.

Local Open Scope Z_scope.
Local Open Scope string_scope.

(** ** Wire types *)

Module ChunkID.
Record t := mk { IDX : Z; IDY : Z }.

#[global] Instance eq_dec : EqDecision t.
Proof. solve_decision. Defined.

#[global] Instance countable : Countable t.
Proof.
  refine (inj_countable' (λ c, (IDX c, IDY c)) (λ p, mk p.1 p.2) _).
  by intros [].
Defined.

Definition zero : t := mk 0 0.
End ChunkID.

Module Player.
Record t := mk {
  ID : string;
  PosX : Z;
  PosY : Z;
  ServerIP : string;
  AOIRadius : Z;
  ChunkID : ChunkID.t
}.

#[global] Instance eq_dec : EqDecision t.
Proof. solve_decision. Defined.

Definition zero : t := mk EmptyString 0 0 EmptyString 0 ChunkID.zero.

(** [player.ServerIP = ip] *)
Definition set_ServerIP (ip : string) (p : t) : t :=
  mk (ID p) (PosX p) (PosY p) ip (AOIRadius p) (ChunkID p).
End Player.

Module Cube.
Record t := mk {
  ID : string;
  X : Z;
  Z_ : Z;
  Height : Z;
  Color : string
}.

#[global] Instance eq_dec : EqDecision t.
Proof. solve_decision. Defined.

Definition zero : t := mk EmptyString 0 0 0 EmptyString.
End Cube.

Module Chunk.
Record t := mk {
  IDX : Z;
  IDY : Z;
  ServerIP : string;
  Data : string;
  PlayerList : list Player.t;
  IsDirty : bool;
  Cells : list Cube.t
}.

#[global] Instance eq_dec : EqDecision t.
Proof. solve_decision. Defined.

(** The zero value [Chunk{}], which a lookup of a missing key yields. *)
Definition zero : t := mk 0 0 EmptyString EmptyString [] false [].

Definition set_ServerIP (ip : string) (c : t) : t :=
  mk (IDX c) (IDY c) ip (Data c) (PlayerList c) (IsDirty c) (Cells c).
Definition set_PlayerList (pl : list Player.t) (c : t) : t :=
  mk (IDX c) (IDY c) (ServerIP c) (Data c) pl (IsDirty c) (Cells c).
Definition set_IsDirty (b : bool) (c : t) : t :=
  mk (IDX c) (IDY c) (ServerIP c) (Data c) (PlayerList c) b (Cells c).
Definition set_Cells (cs : list Cube.t) (c : t) : t :=
  mk (IDX c) (IDY c) (ServerIP c) (Data c) (PlayerList c) (IsDirty c) cs.
End Chunk.

Module GameData.
Record t := mk { Chunk : Chunk.t }.

#[global] Instance eq_dec : EqDecision t.
Proof. solve_decision. Defined.

Definition zero : t := mk Chunk.zero.
End GameData.

Module Request.
Record t := mk {
  Type_ : string;
  ChunkID : ChunkID.t;
  CallerIP : string;
  Player : Player.t;
  IsPeerReq : bool;
  Chunk : Chunk.t;
  IsChunkNew : bool;
  PlayerCount : Z;
  PlayerID : string;
  Cube : Cube.t;
  CubeID : string
}.

Definition zero : t :=
  mk EmptyString ChunkID.zero EmptyString Player.zero false Chunk.zero false 0
    EmptyString Cube.zero EmptyString.

(** [Request{Type: ty, ChunkID: c, CallerIP: ip, PlayerCount: n}] *)
Definition central (ty : string) (c : ChunkID.t) (ip : string) (n : Z) : t :=
  mk ty c ip Player.zero false Chunk.zero false n EmptyString Cube.zero EmptyString.

(** [Request{Type: "MERGE", ChunkID: c, Chunk: ch}] *)
Definition merge (c : ChunkID.t) (ch : Chunk.t) : t :=
  mk "MERGE" c EmptyString Player.zero false ch false 0 EmptyString Cube.zero EmptyString.
End Request.

Module Response.
Record t := mk {
  Success : bool;
  Chunk : Chunk.t;
  Message : string;
  GameData : GameData.t;
  NewIP : string;
  PlayerCount : Z
}.

#[global] Instance eq_dec : EqDecision t.
Proof. solve_decision. Defined.

Definition zero : t := mk false Chunk.zero EmptyString GameData.zero EmptyString 0.
End Response.

Module PlayerJoinRequest.
Record t := mk { PlayerID : string; PosX : Z; PosY : Z }.
End PlayerJoinRequest.

(** ** The central coordinator ([v5/central_server.go]) *)

Module Central.

(** [zone map[ChunkID]string]; [None] is the nil map the variable holds
    before [main] runs [make]. *)
Abbreviation Registry := (gmap ChunkID.t string).
Abbreviation Zone := (option Registry).

(** [zone[c]] read: a nil map reads as empty. *)
Definition owner_of (z : Zone) (c : ChunkID.t) : option string :=
  match z with
  | Some m => m !! c
  | None => None
  end.

(** What a handler gets from [r.Method] and from decoding [r.Body]. *)
Inductive Body (A : Type) :=
| NilBody
| BadJSON
| Decoded (a : A).
Arguments NilBody {A}.
Arguments BadJSON {A}.
Arguments Decoded {A} a.

Record HttpRequest (A : Type) := mkHttp { Method : string; body : Body A }.
Arguments mkHttp {A} Method body.
Arguments Method {A} h.
Arguments body {A} h.

(** What a handler writes to its [http.ResponseWriter]. *)
Inductive HttpReply :=
| WriteHeader (code : Z)
| WriteHeaderJSONError (code : Z)
| HttpError (msg : string) (code : Z)
| JSON (res : Response.t)
| NothingWritten
| Panicked.

(** The UDP exchange of [handlePeerChunk] with the current owner.
    [PeerSendErr]: one of the two address resolutions, the dial, the
    marshalling or the write failed.  [PeerReadErr]: no datagram within
    the three seconds.  [PeerBadJSON]: the datagram did not decode.
    [PeerReply res]: the owner's reply, decoded. *)
Inductive PeerIO :=
| PeerSendErr
| PeerReadErr
| PeerBadJSON
| PeerReply (res : Response.t).

(** The network, as [handlePeerChunk] sees it: the outcome of sending a
    request to an address. *)
Definition Peer := string → Request.t → PeerIO.

Definition serversList : list string :=
  ["172.16.118.72:9000"; "172.16.118.120:9000"; "172.16.118.112:9000"].

Section WithServers.
Variable servers : list string.

(** [randomServer]; [None] is the index-out-of-range panic of
    [serversList[key-1]]. *)
Definition randomServer (id : string) : option string :=
  let key : Z :=
    if decide (id = "1") then 1
    else if decide (id = "2") then 2
    else 3 in
  servers !! Z.to_nat (key - 1).

Definition handleJoin (z : Zone) (r : HttpRequest PlayerJoinRequest.t)
  : Zone * HttpReply :=
  if decide (Method r ≠ "POST") then (z, WriteHeader 405)
  else match body r with
  | NilBody => (z, Panicked)
  | BadJSON => (z, WriteHeaderJSONError 400)
  | Decoded req =>
    match randomServer (PlayerJoinRequest.PlayerID req) with
    | None => (z, Panicked)
    | Some assigned =>
      (z, JSON (Response.mk true Chunk.zero assigned GameData.zero EmptyString 0))
    end
  end.

(** The wrapper [main] puts around [handleJoin]. *)
Definition enableCORS {A} (next : Zone → HttpRequest A → Zone * HttpReply)
  (z : Zone) (r : HttpRequest A) : Zone * HttpReply :=
  if decide (Method r = "OPTIONS") then (z, WriteHeader 200) else next z r.

End WithServers.

(** [handleSentChunk]: an assignment into a nil map panics. *)
Definition handleSentChunk (z : Zone) (r : HttpRequest Request.t)
  : Zone * HttpReply :=
  if decide (Method r ≠ "POST") then (z, WriteHeader 405)
  else match body r with
  | NilBody => (z, Panicked)
  | BadJSON => (z, WriteHeaderJSONError 400)
  | Decoded req =>
    let chunk_id := Request.ChunkID req in
    match z with
    | None => (z, Panicked)
    | Some zone => (Some (<[chunk_id := Request.CallerIP req]> zone), NothingWritten)
    end
  end.

(** The degraded decision taken when the owner's reply is missing or does
    not decode. *)
Definition fallback (zone : Registry) (chunk_id : ChunkID.t) (owner : string)
  (req : Request.t) : Zone * HttpReply :=
  let caller_load := Request.PlayerCount req in
  if decide (caller_load > 0) then
    (Some (<[chunk_id := Request.CallerIP req]> zone),
     JSON (Response.mk true Chunk.zero (Request.CallerIP req) GameData.zero
             (Request.CallerIP req) 0))
  else
    (Some zone, JSON (Response.mk true Chunk.zero owner GameData.zero owner 0)).

Definition handlePeerChunk (peer : Peer) (z : Zone) (r : HttpRequest Request.t)
  : Zone * HttpReply :=
  match z with
  | None => (z, HttpError "Server not properly initialized" 500)
  | Some zone =>
    if decide (Method r ≠ "POST") then (z, WriteHeader 405)
    else match body r with
    | NilBody => (z, HttpError "Request body is empty" 400)
    | BadJSON => (z, WriteHeaderJSONError 400)
    | Decoded req =>
      if decide (Request.CallerIP req = EmptyString) then
        (z, HttpError "Missing caller_ip" 400)
      else
        let chunk_id := Request.ChunkID req in
        let caller_load := Request.PlayerCount req in
        match zone !! chunk_id with
        | None =>
          (Some (<[chunk_id := Request.CallerIP req]> zone), JSON Response.zero)
        | Some owner =>
          let req_from_central :=
            Request.central "FROM_CENTRAL" chunk_id (Request.CallerIP req)
              caller_load in
          match peer owner req_from_central with
          | PeerSendErr => (z, HttpError "Internal server error" 500)
          | PeerReadErr => fallback zone chunk_id owner req
          | PeerBadJSON => fallback zone chunk_id owner req
          | PeerReply res =>
            let callee_load := Response.PlayerCount res in
            let peer_chunk := Response.Chunk res in
            if decide (callee_load < caller_load) then
              (Some (<[chunk_id := Request.CallerIP req]> zone),
               JSON (Response.mk true peer_chunk (Request.CallerIP req)
                       GameData.zero (Request.CallerIP req) 0))
            else
              (z, JSON (Response.mk true Chunk.zero owner GameData.zero owner 0))
          end
        end
    end
  end.

(** The routes [main] registers.  [/chunk] and [/peer_chunk] are both
    [handlePeerChunk]; [handleFetchChunk] is registered nowhere. *)
Inductive Call :=
| Join (r : HttpRequest PlayerJoinRequest.t)
| PeerChunk (peer : Peer) (r : HttpRequest Request.t)
| SentChunk (r : HttpRequest Request.t).

Definition serve (z : Zone) (c : Call) : Zone * HttpReply :=
  match c with
  | Join r => enableCORS (handleJoin serversList) z r
  | PeerChunk peer r => handlePeerChunk peer z r
  | SentChunk r => handleSentChunk z r
  end.

(** [zone = make(map[ChunkID]string)] in [main]. *)
Definition init : Zone := Some ∅.

(** The registry after a sequence of requests, served one at a time. *)
Definition run (z : Zone) (calls : list Call) : Zone :=
  foldl (λ z c, (serve z c).1) z calls.

(** A [PEER_CHUNK] request as the routes [/chunk] and [/peer_chunk]
    receive it: a POST whose body decodes to [req]. *)
Definition post (req : Request.t) : HttpRequest Request.t :=
  mkHttp "POST" (Decoded req).

(** The request [handlePeerChunk] forwards to the current owner. *)
Definition from_central (req : Request.t) : Request.t :=
  Request.central "FROM_CENTRAL" (Request.ChunkID req) (Request.CallerIP req)
    (Request.PlayerCount req).

(** The chunk and the caller address a request that can write the
    registry carries: a decoded POST to [/chunk], [/peer_chunk] or
    [/sentchunk]. *)
Definition carried (call : Call) : option (ChunkID.t * string) :=
  match call with
  | Join _ => None
  | PeerChunk _ r | SentChunk r =>
    if decide (Method r = "POST") then
      match body r with
      | Decoded req => Some (Request.ChunkID req, Request.CallerIP req)
      | _ => None
      end
    else None
  end.

Definition is_PeerChunk (call : Call) : bool :=
  match call with
  | PeerChunk _ _ => true
  | _ => false
  end.

End Central.

(** ** The game server (UDP request handlers) *)

Module Server.

Record State := mkState {
  zone_map : gmap ChunkID.t Chunk.t;
  players : gmap string ChunkID.t;
  player_map : gmap string Player.t
}.

(** [zone_map], [players] and [player_map] as the package initialises
    them. *)
Definition init : State := mkState ∅ ∅ ∅.

(** What a handler puts on the network, in order. *)
Inductive Emit :=
| SendJSON (res : Response.t)
| SendMerge (peer_ip : string) (req : Request.t)
| PostCentral (req : Request.t).

(** The exchange inside [merge].  [MergeFatal]: the address did not
    resolve or the dial failed, [log.Fatal] ends the process.
    [MergeSendErr]: marshalling or the write failed, nothing was sent and
    [merge] returns [nil, err].  [MergeNoAck]: the request was sent, the
    read timed out after two seconds or the answer did not decode, [merge]
    returns [nil, err].  [MergeAck res]: [merge] returns [&res, nil]. *)
Inductive MergeIO :=
| MergeFatal
| MergeSendErr
| MergeNoAck
| MergeAck (res : Response.t).

(** The HTTP exchange of [handleGetData] with the central.  [PostErr]:
    [http.Post] failed and returned a nil response.  [PostBody res]: the
    value of [central_response] after decoding the body into it (the
    decoding error is dropped, so a body that is no JSON leaves the zero
    value). *)
Inductive CentralIO :=
| PostErr
| PostBody (res : Response.t).

Record Net := mkNet {
  merge_io : Request.t → string → MergeIO;
  central_io : Request.t → CentralIO
}.

(** Why a handler stops before its end. *)
Inductive Fault :=
| NilDereference
| LogFatal
| IndexOutOfRange.

(** A handler is a computation over the server's maps and the trace of
    what it sent so far; it ends normally or with a fault that takes the
    process down. *)
Inductive Run (A : Type) :=
| Ok (a : A) (st : State) (tr : list Emit)
| Abort (f : Fault) (st : State) (tr : list Emit).
Arguments Ok {A} a st tr.
Arguments Abort {A} f st tr.

Definition M (A : Type) : Type := State → list Emit → Run A.

#[global] Instance M_ret : MRet M := λ A a st tr, Ok a st tr.

#[global] Instance M_bind : MBind M := λ A B k m st tr,
  match m st tr with
  | Ok a st' tr' => k a st' tr'
  | Abort f st' tr' => Abort f st' tr'
  end.

Definition panic {A} (f : Fault) : M A := λ st tr, Abort f st tr.

Definition emit (e : Emit) : M unit := λ st tr, Ok () st (tr ++ [e]).

(** [chunk, ok := zone_map[chunk_id]] *)
Definition get_zone (chunk_id : ChunkID.t) : M (Chunk.t * bool) := λ st tr,
  match zone_map st !! chunk_id with
  | Some chunk => Ok (chunk, true) st tr
  | None => Ok (Chunk.zero, false) st tr
  end.

(** [zone_map[chunk_id] = chunk] *)
Definition set_zone (chunk_id : ChunkID.t) (chunk : Chunk.t) : M unit :=
  λ st tr,
  Ok () (mkState (<[chunk_id := chunk]> (zone_map st)) (players st)
           (player_map st)) tr.

(** [players[player_id] = chunk_id] *)
Definition set_players (player_id : string) (chunk_id : ChunkID.t) : M unit :=
  λ st tr,
  Ok () (mkState (zone_map st) (<[player_id := chunk_id]> (players st))
           (player_map st)) tr.

(** [player_map[player_id] = player] *)
Definition set_player_map (player_id : string) (player : Player.t) : M unit :=
  λ st tr,
  Ok () (mkState (zone_map st) (players st)
           (<[player_id := player]> (player_map st))) tr.

(** [delete(players, player_id); delete(player_map, player_id)] *)
Definition delete_player (player_id : string) : M unit := λ st tr,
  Ok () (mkState (zone_map st) (delete player_id (players st))
           (delete player_id (player_map st))) tr.

Definition sendJSON (res : Response.t) : M unit := emit (SendJSON res).

(** [for _, x := range xs { body }]: the iteration variable is a copy of
    the element; the body works on that copy and on the enclosing
    state. *)
Definition for_range {A S : Type} (xs : list A) (body : A → S → S) (s : S) : S :=
  foldl (λ s x, body x s) s xs.

(** [Response{Success: true, Message: msg}] and its variations. *)
Definition reply (ok : bool) (msg : string) : Response.t :=
  Response.mk ok Chunk.zero msg GameData.zero EmptyString 0.
Definition reply_chunk (ok : bool) (chunk : Chunk.t) (msg : string) : Response.t :=
  Response.mk ok chunk msg GameData.zero EmptyString 0.

(** [deleteFromList]: [None] is the index-out-of-range panic of [s[idx]]
    or of [s[len(s)-1]]. *)
Definition deleteFromList (s : list Cube.t) (idx : nat) : option (list Cube.t) :=
  match s !! (length s - 1)%nat with
  | None => None
  | Some last_cube =>
    if decide (idx < length s)%nat
    then Some (take (length s - 1)%nat (<[idx := last_cube]> s))
    else None
  end.

(** The index at which the loop of [handleDltCube] finds [cube_id], the
    loop running over [cells] from index [cell_no] on. *)
Fixpoint first_match (cube_id : string) (cells : list Cube.t) (cell_no : nat)
  : option nat :=
  match cells with
  | [] => None
  | cell :: rest =>
    if decide (Cube.ID cell = cube_id) then Some cell_no
    else first_match cube_id rest (S cell_no)
  end.

Definition handleDltCube (req : Request.t) : M unit :=
  let chunk_id := Request.ChunkID req in
  '(chunk, _) ← get_zone chunk_id;
  cells ← match first_match (Request.CubeID req) (Chunk.Cells chunk) 0%nat with
          | Some cell_no =>
            match deleteFromList (Chunk.Cells chunk) cell_no with
            | Some cells => mret cells
            | None => panic IndexOutOfRange
            end
          | None => mret (Chunk.Cells chunk)
          end;
  let chunk := Chunk.set_Cells cells chunk in
  let chunk := Chunk.set_IsDirty true chunk in
  set_zone chunk_id chunk;;
  sendJSON (reply true "Deleted Cube").

Definition handleAddCube (req : Request.t) : M unit :=
  let chunk_id := Request.ChunkID req in
  '(chunk, _) ← get_zone chunk_id;
  let chunk := Chunk.set_Cells (Chunk.Cells chunk ++ [Request.Cube req]) chunk in
  let chunk := Chunk.set_IsDirty true chunk in
  set_zone chunk_id chunk;;
  sendJSON (reply true "Added Cube").

Definition handleMergeChunk (req : Request.t) : M unit :=
  let chunk_id := Request.ChunkID req in
  '(chunk, ok) ← get_zone chunk_id;
  let req_chunk := Request.Chunk req in
  (if negb ok then set_zone chunk_id req_chunk
   else
     let chunk :=
       for_range (Chunk.PlayerList req_chunk)
         (λ player chunk,
            Chunk.set_PlayerList (Chunk.PlayerList chunk ++ [player]) chunk)
         chunk in
     set_zone chunk_id chunk);;
  sendJSON (reply true "Merged Chunk").

Definition handleReadOnly (req : Request.t) : M unit :=
  let chunk_id := Request.ChunkID req in
  '(chunk, _) ← get_zone chunk_id;
  let res :=
    if Request.IsChunkNew req || Chunk.IsDirty chunk
       || bool_decide (0 < length (Chunk.PlayerList chunk))%nat
    then reply_chunk true chunk "Sending the chunk"
    else reply false "Use your local copy" in
  sendJSON res.

Definition handleDeletePlayer (req : Request.t) : M unit :=
  let player_id := Player.ID (Request.Player req) in
  delete_player player_id;;
  sendJSON (reply true "Player deleted").

(** The players the loop of [handleGetUpdates] collects are only counted
    in a log line. *)
Definition handleGetUpdates (req : Request.t) : M unit :=
  let chunk_id := Request.ChunkID req in
  '(chunk, _) ← get_zone chunk_id;
  sendJSON (Response.mk true Chunk.zero EmptyString (GameData.mk chunk) EmptyString 0).

Definition handleMovePlayer (req : Request.t) : M unit :=
  let player_id := Player.ID (Request.Player req) in
  let chunk_id := Request.ChunkID req in
  let player := Request.Player req in
  set_players player_id chunk_id;;
  set_player_map player_id player;;
  sendJSON (reply true "Player position updated").

Definition handleUpdateData (req : Request.t) : M unit :=
  let chunk_id := Request.ChunkID req in
  let chunk := Request.Chunk req in
  set_zone chunk_id chunk;;
  sendJSON (reply true "Chunk data updated").

Section WithNet.
Variable serverIP : string.
Variable net : Net.

(** [merge(req, peer_ip)]: the pointer it returns, [None] for nil. *)
Definition merge (req : Request.t) (peer_ip : string) : M (option Response.t) :=
  match merge_io net req peer_ip with
  | MergeFatal => panic LogFatal
  | MergeSendErr => mret None
  | MergeNoAck => emit (SendMerge peer_ip req);; mret None
  | MergeAck res => emit (SendMerge peer_ip req);; mret (Some res)
  end.

(** [log.Printf(merge_res.Message)]: the field read through the pointer. *)
Definition log_Message (merge_res : option Response.t) : M unit :=
  match merge_res with
  | Some _ => mret ()
  | None => panic NilDereference
  end.

(** [http.Post] to the central's [/chunk] and the decoding of the answer;
    [httpResp.Body] is read through the pointer [http.Post] returned. *)
Definition post_central (centralReq : Request.t) : M Response.t :=
  emit (PostCentral centralReq);;
  match central_io net centralReq with
  | PostErr => panic NilDereference
  | PostBody central_response => mret central_response
  end.

Definition handleCentralPeerReq (req : Request.t) : M unit :=
  let chunk_id := Request.ChunkID req in
  '(chunk, _) ← get_zone chunk_id;
  let caller_player_count := Request.PlayerCount req in
  let my_player_count := Z.of_nat (length (Chunk.PlayerList chunk)) in
  res ← (if decide (caller_player_count >= my_player_count) then
           let chunk := Chunk.set_ServerIP (Request.CallerIP req) chunk in
           let chunk :=
             for_range (Chunk.PlayerList chunk)
               (λ player chunk,
                  let player := Player.set_ServerIP (Request.CallerIP req) player in
                  chunk)
               chunk in
           let chunk := Chunk.set_IsDirty true chunk in
           set_zone chunk_id chunk;;
           let res :=
             Response.mk true chunk EmptyString GameData.zero EmptyString
               my_player_count in
           let merge_req := Request.merge chunk_id chunk in
           merge_res ← merge merge_req (Request.CallerIP req);
           log_Message merge_res;;
           mret res
         else
           mret (Response.mk true chunk EmptyString GameData.zero EmptyString my_player_count));
  sendJSON res.

Definition handleGetData (req : Request.t) : M unit :=
  let chunk_id := Request.ChunkID req in
  let player_id := Player.ID (Request.Player req) in
  let player := Request.Player req in
  '(val, ok) ← get_zone chunk_id;
  let player_count :=
    if (ok : bool) then Z.of_nat (length (Chunk.PlayerList val)) else 0 in
  res ← (if ok && bool_decide (Chunk.ServerIP val = serverIP) then
           let res := reply_chunk true val serverIP in
           set_players player_id chunk_id;;
           mret res
         else
           let centralReq :=
             Request.central "GET_CHUNK" chunk_id serverIP player_count in
           central_response ← post_central centralReq;
           if negb (Response.Success central_response) then
             let new_chunk :=
               Chunk.mk (ChunkID.IDX chunk_id) (ChunkID.IDY chunk_id) serverIP
                 "new chunk" [] false [] in
             set_players player_id chunk_id;;
             set_player_map player_id player;;
             let new_chunk :=
               Chunk.set_PlayerList (Chunk.PlayerList new_chunk ++ [player])
                 new_chunk in
             set_zone chunk_id new_chunk;;
             mret (reply_chunk true new_chunk serverIP)
           else
             let owner := Response.Message central_response in
             res ← (if ok && bool_decide (owner ≠ serverIP) then
                      let val :=
                        for_range (Chunk.PlayerList val)
                          (λ player val,
                             let player := Player.set_ServerIP owner player in
                             val)
                          val in
                      let val := Chunk.set_ServerIP owner val in
                      let val := Chunk.set_IsDirty true val in
                      set_zone chunk_id val;;
                      let merge_req := Request.merge chunk_id val in
                      merge_res ← merge merge_req owner;
                      log_Message merge_res;;
                      mret (reply true owner)
                    else if negb ok && bool_decide (owner ≠ serverIP) then
                      let temp_chunk :=
                        Chunk.set_PlayerList
                          (Chunk.PlayerList Chunk.zero ++ [player]) Chunk.zero in
                      let merge_req := Request.merge chunk_id temp_chunk in
                      merge_res ← merge merge_req owner;
                      log_Message merge_res;;
                      mret (reply true owner)
                    else if (ok : bool) then
                      '(updated_chunk, _) ← get_zone chunk_id;
                      mret (reply_chunk true updated_chunk owner)
                    else
                      let updated_chunk := Response.Chunk central_response in
                      let updated_chunk :=
                        Chunk.set_PlayerList
                          (Chunk.PlayerList updated_chunk ++ [player])
                          updated_chunk in
                      mret (reply_chunk true updated_chunk owner));
             set_zone chunk_id (Response.Chunk res);;
             mret res);
  sendJSON res.

(** The [switch req.Type] of the receive loop in [main]. *)
Definition dispatch (req : Request.t) : M unit :=
  let ty := Request.Type_ req in
  if decide (ty = "GET_DATA") then handleGetData req
  else if decide (ty = "FROM_CENTRAL") then handleCentralPeerReq req
  else if decide (ty = "UPDATE_DATA") then handleUpdateData req
  else if decide (ty = "MOVE_PLAYER") then handleMovePlayer req
  else if decide (ty = "GET_UPDATES") then handleGetUpdates req
  else if decide (ty = "DLT_PLAYER") then handleDeletePlayer req
  else if decide (ty = "READ_ONLY") then handleReadOnly req
  else if decide (ty = "MERGE") then handleMergeChunk req
  else if decide (ty = "ADD_CUBE") then handleAddCube req
  else if decide (ty = "DLT_CUBE") then handleDltCube req
  else sendJSON (reply false "Unknown request type").

End WithNet.

(** One request handled from state [st], starting with an empty trace. *)
Definition handle {A} (m : M A) (st : State) : Run A := m st [].

(** The state with the entry of [chunk_id] in [zone_map] set to [chunk]. *)
Definition with_chunk (st : State) (chunk_id : ChunkID.t) (chunk : Chunk.t)
  : State :=
  mkState (<[chunk_id := chunk]> (zone_map st)) (players st) (player_map st).

(** The chunk a server stores and sends when it gives a chunk up to
    [ip]. *)
Definition yielded (ip : string) (chunk : Chunk.t) : Chunk.t :=
  Chunk.set_IsDirty true (Chunk.set_ServerIP ip chunk).

End Server.

(** ** The servers, players and networks of the scenarios *)

Module Scenario.
Import Server.

Definition A : string := "172.16.118.72:9000".
Definition B : string := "172.16.118.120:9000".
Definition c00 : ChunkID.t := ChunkID.mk 0 0.
Definition p1 : Player.t := Player.mk "p1" 0 0 A 5 c00.
Definition p2 : Player.t := Player.mk "p2" 1 1 B 5 c00.
Definition k1 : Cube.t := Cube.mk "k1" 3 5 0 "#ff0000".

(** A network on which every [MERGE] is acknowledged and the central
    names [B] as owner. *)
Definition net_acks : Net :=
  mkNet (λ _ _, MergeAck (reply true "Merged Chunk"))
        (λ _, PostBody (Response.mk true Chunk.zero B GameData.zero B 0)).

(** A network on which no [MERGE] is acknowledged within the deadline. *)
Definition net_silent : Net :=
  mkNet (λ _ _, MergeNoAck)
        (λ _, PostBody (Response.mk true Chunk.zero B GameData.zero B 0)).

End Scenario.

(** ** The rest of the central coordinator *)

Module CentralRest.
Import Central.

(** [handleFetchChunk], which [main] registers on no route.  The two
    coordinates are divided by 32 with Go's integer division, which
    truncates toward zero.  The registry is read, then written whatever
    was read; the write into a nil map panics. *)
Definition handleFetchChunk (z : Zone) (r : HttpRequest Request.t)
  : Zone * HttpReply :=
  if decide (Method r ≠ "POST") then (z, WriteHeader 405)
  else match body r with
  | NilBody => (z, Panicked)
  | BadJSON => (z, WriteHeaderJSONError 400)
  | Decoded req =>
    let chunkID :=
      ChunkID.mk (Z.quot (ChunkID.IDX (Request.ChunkID req)) 32)
                 (Z.quot (ChunkID.IDY (Request.ChunkID req)) 32) in
    let res :=
      match owner_of z chunkID with
      | Some owner => Response.mk false Chunk.zero owner GameData.zero EmptyString 0
      | None => Response.mk true Chunk.zero "assigned" GameData.zero EmptyString 0
      end in
    match z with
    | None => (z, Panicked)
    | Some zone => (Some (<[chunkID := Request.CallerIP req]> zone), JSON res)
    end
  end.

End CentralRest.

(** ** The receive loop of the game server *)

Module ServerLoop.
Import Server.

(** What [ReadFromUDP] and [json.Unmarshal] make of a datagram: one that
    does not decode is logged and skipped. *)
Inductive Datagram :=
| Garbage
| Decodes (req : Request.t).

(** The loop of [main] over the datagrams of [inbox], from the maps [st]
    and the trace [tr]: each decoded request is dispatched; a fault ends
    the process with the datagrams left unread. *)
Fixpoint main_loop (serverIP : string) (net : Net) (inbox : list Datagram)
  : M unit := λ st tr,
  match inbox with
  | [] => Ok () st tr
  | Garbage :: rest => main_loop serverIP net rest st tr
  | Decodes req :: rest =>
    match dispatch serverIP net req st tr with
    | Ok _ st' tr' => main_loop serverIP net rest st' tr'
    | Abort f st' tr' => Abort f st' tr'
    end
  end.

(** The maps and the trace a computation ends with, faulty or not. *)
Definition final_state {A} (r : Run A) : State :=
  match r with
  | Ok _ st _ => st
  | Abort _ st _ => st
  end.

Definition final_trace {A} (r : Run A) : list Emit :=
  match r with
  | Ok _ _ tr => tr
  | Abort _ _ tr => tr
  end.

Definition completed {A} (r : Run A) : bool :=
  match r with
  | Ok _ _ _ => true
  | Abort _ _ _ => false
  end.

(** The replies among what was sent. *)
Definition replies (tr : list Emit) : list Response.t :=
  omap (λ e, match e with SendJSON res => Some res | _ => None end) tr.

(** The request types [main] dispatches to a handler that talks to no
    other process. *)
Definition local_type (ty : string) : bool :=
  negb (bool_decide (ty = "GET_DATA")) && negb (bool_decide (ty = "FROM_CENTRAL")).

(** The owner of a chunk answering the central: the maps it ends with and
    the reply it sent, if it sent one. *)
Definition answer (net : Net) (st : State) (req : Request.t)
  : option (State * Response.t) :=
  match handle (handleCentralPeerReq net req) st with
  | Ok _ st' tr =>
    match last (replies tr) with
    | Some res => Some (st', res)
    | None => None
    end
  | Abort _ _ _ => None
  end.

(** The requests the gateway builds for the two cube routes. *)
Definition add_cube (c : ChunkID.t) (cube : Cube.t) : Request.t :=
  Request.mk "ADD_CUBE" c EmptyString Player.zero false Chunk.zero false 0
    EmptyString cube EmptyString.
Definition dlt_cube (c : ChunkID.t) (cube_id : string) : Request.t :=
  Request.mk "DLT_CUBE" c EmptyString Player.zero false Chunk.zero false 0
    EmptyString Cube.zero cube_id.

(** The request [handleGetData] posts to the central: the player count is
    that of the local copy, zero without one. *)
Definition centralReq (serverIP : string) (st : State) (req : Request.t)
  : Request.t :=
  Request.central "GET_CHUNK" (Request.ChunkID req) serverIP
    (Z.of_nat (length (Chunk.PlayerList
                         (default Chunk.zero (zone_map st !! Request.ChunkID req))))).

(** This server does not hold the chunk as its owner. *)
Definition not_owner (serverIP : string) (st : State) (c : ChunkID.t) : Prop :=
  ∀ chunk, zone_map st !! c = Some chunk → Chunk.ServerIP chunk ≠ serverIP.

(** A request with its [Type] field set to [ty]. *)
Definition typed (ty : string) (req : Request.t) : Request.t :=
  Request.mk ty (Request.ChunkID req) (Request.CallerIP req) (Request.Player req)
    (Request.IsPeerReq req) (Request.Chunk req) (Request.IsChunkNew req)
    (Request.PlayerCount req) (Request.PlayerID req) (Request.Cube req)
    (Request.CubeID req).

(** A decoded request of a local type, or a datagram that is skipped. *)
Definition local_datagram (d : Datagram) : bool :=
  match d with
  | Garbage => true
  | Decodes req => local_type (Request.Type_ req)
  end.

(** The requests among the datagrams. *)
Definition requests (inbox : list Datagram) : list Request.t :=
  omap (λ d, match d with Decodes req => Some req | Garbage => None end) inbox.

(** Every run of [m] ends with maps related by [R] to those it started
    from, whether it ends normally or on a fault. *)
Definition preserves (R : State → State → Prop) {A} (m : M A) : Prop :=
  ∀ st tr, R st (final_state (m st tr)).

(** Every player with a record in [player_map] has a chunk in
    [players]. *)
Definition index_ok (st : State) : Prop :=
  ∀ id, is_Some (player_map st !! id) → is_Some (players st !! id).

End ServerLoop.

(** ** The player client ([v5/player_1.go]) *)

Module Client.

(** A Go [int] is 64 bits wide: the value of [x + 1] and the like. *)
Definition wrap64 (z : Z) : Z := (z + 2 ^ 63) mod 2 ^ 64 - 2 ^ 63.

(** [PlayerState] without its socket. *)
Record PlayerState := mkPlayerState {
  player : Player.t;
  currentChunk : ChunkID.t;
  serverIP : string
}.

Definition set_pos (x y : Z) (p : Player.t) : Player.t :=
  Player.mk (Player.ID p) x y (Player.ServerIP p) (Player.AOIRadius p)
    (Player.ChunkID p).

(** [CalculateChunkID]: Go's [/] truncates toward zero. *)
Definition CalculateChunkID (ps : PlayerState) : ChunkID.t :=
  let chunkSize := 32 in
  ChunkID.mk (Z.quot (Player.PosX (player ps)) chunkSize)
             (Z.quot (Player.PosY (player ps)) chunkSize).

(** [MoveRandomly]: one step on both axes, then the four clamps in their
    order. *)
Definition MoveRandomly (ps : PlayerState) : PlayerState :=
  let x := wrap64 (Player.PosX (player ps) + 1) in
  let y := wrap64 (Player.PosY (player ps) + 1) in
  let x := if decide (x < 0) then 0 else x in
  let y := if decide (y < 0) then 0 else y in
  let x := if decide (x > 500) then 500 else x in
  let y := if decide (y > 500) then 500 else y in
  mkPlayerState (set_pos x y (player ps)) (currentChunk ps) (serverIP ps).

(** [SendRequest]: [None] is the [nil, err] of a failed write, a read
    that timed out or an answer that did not decode. *)
Definition Send := Request.t → option Response.t.

(** [Request{Type: ty, Player: p, ChunkID: c}] *)
Definition request (ty : string) (p : Player.t) (c : ChunkID.t) : Request.t :=
  Request.mk ty c EmptyString p false Chunk.zero false 0 EmptyString Cube.zero
    EmptyString.

(** [ChangeServerIP]; [None] is the [log.Fatal] of an address that does
    not resolve or a dial that fails, [dial] telling which addresses
    work. *)
Definition ChangeServerIP (dial : string → bool) (new_IP : string)
    (ps : PlayerState) : option PlayerState :=
  if dial new_IP
  then Some (mkPlayerState (player ps) (currentChunk ps) new_IP)
  else None.

(** [Initialize] *)
Definition Initialize (send : Send) (dial : string → bool) (ps : PlayerState)
  : option PlayerState :=
  let chunkID := CalculateChunkID ps in
  let req := request "GET_DATA" (player ps) chunkID in
  match send req with
  | None => Some ps
  | Some res =>
    if Response.Success res
    then Some (mkPlayerState (player ps) chunkID (serverIP ps))
    else ChangeServerIP dial (Response.Message res) ps
  end.

(** [HandleChunkTransition]: the state and the boolean it returns. *)
Definition HandleChunkTransition (send : Send) (ps : PlayerState)
  : PlayerState * bool :=
  let newChunk := CalculateChunkID ps in
  if decide (newChunk ≠ currentChunk ps) then
    let req := request "GET_DATA" (player ps) newChunk in
    match send req with
    | None => (ps, false)
    | Some res =>
      if Response.Success res
      then (mkPlayerState (player ps) newChunk (serverIP ps), true)
      else (ps, false)
    end
  else (ps, true).

End Client.

(** ** The datagrams between the owner and the central *)

Module Wire.
Import Central Server ServerLoop.

Definition quote : string := String (Ascii.ascii_of_nat 34) EmptyString.

(** The JSON text [json.Marshal] writes for the wire types: the fields in
    the order of the struct, under the names of their tags.  Strings are
    written as they are, which is what Go does for strings without a
    character it escapes, and an empty slice is written [[]], which is
    what Go does for an empty slice that is not nil; an escaped character
    and a nil slice ([null]) take more bytes, so the length of this text
    is never more than the length of the datagram. *)
Definition json_string (s : string) : string := quote +:+ s +:+ quote.
Definition json_key (k : string) : string := quote +:+ k +:+ quote +:+ ":".
Definition json_bool (b : bool) : string := if b then "true" else "false".
Definition json_int (z : Z) : string := pretty z.
Definition json_list {A} (f : A → string) (l : list A) : string :=
  "[" +:+ String.concat "," (f <$> l) +:+ "]".

Definition json_ChunkID (c : ChunkID.t) : string :=
  "{" +:+ json_key "id_x" +:+ json_int (ChunkID.IDX c) +:+ ","
      +:+ json_key "id_y" +:+ json_int (ChunkID.IDY c) +:+ "}".

Definition json_Player (p : Player.t) : string :=
  "{" +:+ json_key "id" +:+ json_string (Player.ID p) +:+ ","
      +:+ json_key "posx" +:+ json_int (Player.PosX p) +:+ ","
      +:+ json_key "posy" +:+ json_int (Player.PosY p) +:+ ","
      +:+ json_key "server_ip" +:+ json_string (Player.ServerIP p) +:+ ","
      +:+ json_key "aoi_radius" +:+ json_int (Player.AOIRadius p) +:+ ","
      +:+ json_key "chunk_id" +:+ json_ChunkID (Player.ChunkID p) +:+ "}".

Definition json_Cube (k : Cube.t) : string :=
  "{" +:+ json_key "cube_id" +:+ json_string (Cube.ID k) +:+ ","
      +:+ json_key "x" +:+ json_int (Cube.X k) +:+ ","
      +:+ json_key "z" +:+ json_int (Cube.Z_ k) +:+ ","
      +:+ json_key "height" +:+ json_int (Cube.Height k) +:+ ","
      +:+ json_key "color" +:+ json_string (Cube.Color k) +:+ "}".

Definition json_Chunk (c : Chunk.t) : string :=
  "{" +:+ json_key "id_x" +:+ json_int (Chunk.IDX c) +:+ ","
      +:+ json_key "id_y" +:+ json_int (Chunk.IDY c) +:+ ","
      +:+ json_key "server_ip" +:+ json_string (Chunk.ServerIP c) +:+ ","
      +:+ json_key "data" +:+ json_string (Chunk.Data c) +:+ ","
      +:+ json_key "player_list" +:+ json_list json_Player (Chunk.PlayerList c) +:+ ","
      +:+ json_key "is_dirty" +:+ json_bool (Chunk.IsDirty c) +:+ ","
      +:+ json_key "cells" +:+ json_list json_Cube (Chunk.Cells c) +:+ "}".

Definition json_GameData (g : GameData.t) : string :=
  "{" +:+ json_key "chunk" +:+ json_Chunk (GameData.Chunk g) +:+ "}".

Definition json_Response (r : Response.t) : string :=
  "{" +:+ json_key "success" +:+ json_bool (Response.Success r) +:+ ","
      +:+ json_key "chunk" +:+ json_Chunk (Response.Chunk r) +:+ ","
      +:+ json_key "message" +:+ json_string (Response.Message r) +:+ ","
      +:+ json_key "game_data" +:+ json_GameData (Response.GameData r) +:+ ","
      +:+ json_key "new_ip" +:+ json_string (Response.NewIP r) +:+ ","
      +:+ json_key "player_count" +:+ json_int (Response.PlayerCount r) +:+ "}".

(** What [handlePeerChunk] makes of the owner's reply: [conn.Read] fills
    a buffer of 1024 bytes, so of a datagram of [len] bytes that decodes
    to [res] the handler decodes the whole text when [len] is at most
    1024 and a cut text, which is no JSON, otherwise. *)
Definition read_reply (len : nat) (res : Response.t) : PeerIO :=
  if decide (len ≤ 1024)%nat then PeerReply res else PeerBadJSON.

(** The exchange of [handlePeerChunk] with an owner whose maps are [st]:
    the owner handles the [FROM_CENTRAL] request; the reply it sends, a
    datagram of [len res] bytes, is read by the central, and an owner that
    sends none leaves the central's read to fail. *)
Definition owner_exchange (net : Net) (st : State) (len : Response.t → nat)
  : Peer := λ _ req,
  match answer net st req with
  | Some (_, res) => read_reply (len res) res
  | None => PeerReadErr
  end.

(** The maps of the owner after the exchange. *)
Definition owner_after (net : Net) (st : State) (req : Request.t) : State :=
  final_state (handle (handleCentralPeerReq net req) st).

(** Seven players in chunk [(0,0)] on server [A]. *)
Definition seven_players : list Player.t :=
  (λ id, Player.mk id 0 0 Scenario.A 5 Scenario.c00)
    <$> ["p1"; "p2"; "p3"; "p4"; "p5"; "p6"; "p7"].

End Wire.

(** * Properties of the central coordinator *)

Module CentralSpec.
Import Central.

Lemma handlePeerChunk_present (peer : Peer) (zone : Registry) (req : Request.t)
    (owner : string) :
  Request.CallerIP req ≠ EmptyString →
  zone !! Request.ChunkID req = Some owner →
  handlePeerChunk peer (Some zone) (post req) =
    match peer owner (from_central req) with
    | PeerSendErr => (Some zone, HttpError "Internal server error" 500)
    | PeerReadErr | PeerBadJSON => fallback zone (Request.ChunkID req) owner req
    | PeerReply res =>
      if decide (Response.PlayerCount res < Request.PlayerCount req) then
        (Some (<[Request.ChunkID req := Request.CallerIP req]> zone),
         JSON (Response.mk true (Response.Chunk res) (Request.CallerIP req)
                 GameData.zero (Request.CallerIP req) 0))
      else
        (Some zone, JSON (Response.mk true Chunk.zero owner GameData.zero owner 0))
    end.
Proof.
  intros Hip Hown. unfold handlePeerChunk, post, from_central. cbn [Method body].
  rewrite (decide_False (P := "POST" ≠ "POST")) by (intros H; by apply H).
  rewrite decide_False by done.
  by rewrite Hown.
Qed.

(** X30.  A [PEER_CHUNK] request for a chunk the registry holds, when the
    central has read the owner's reply whole and decoded it: when the
    count in the reply is strictly below the caller's, the registry entry
    becomes the caller's address and the reply names the caller (and
    carries the chunk of the owner's reply); when it is equal or greater,
    the registry is unchanged and the reply names the existing owner,
    without a chunk.  Hence, for a caller other than the owner, the entry
    is the caller's address after the call exactly when the count in the
    reply is strictly smaller. *)
Theorem handlePeerChunk_load_decision (peer : Peer) (zone : Registry)
    (req : Request.t) (owner : string) (res : Response.t) :
  Request.CallerIP req ≠ EmptyString →
  zone !! Request.ChunkID req = Some owner →
  peer owner (from_central req) = PeerReply res →
  let chunk_id := Request.ChunkID req in
  let caller_ip := Request.CallerIP req in
  let out := handlePeerChunk peer (Some zone) (post req) in
  (Response.PlayerCount res < Request.PlayerCount req →
     out.1 = Some (<[chunk_id := caller_ip]> zone) ∧
     out.2 = JSON (Response.mk true (Response.Chunk res) caller_ip
                     GameData.zero caller_ip 0)) ∧
  ((Request.PlayerCount req ≤ Response.PlayerCount res)%Z →
     out.1 = Some zone ∧
     out.2 = JSON (Response.mk true Chunk.zero owner GameData.zero owner 0)) ∧
  (owner ≠ caller_ip →
     (owner_of out.1 chunk_id = Some caller_ip ↔
      Response.PlayerCount res < Request.PlayerCount req)).
Proof.
  intros Hip Hown Hpeer chunk_id caller_ip out. subst out.
  rewrite (handlePeerChunk_present peer zone req owner Hip Hown), Hpeer.
  case_decide as Hlt; simpl.
  - split_and!; try done; try lia.
    intros _. split; [done|]. intros _. apply lookup_insert_eq.
  - split_and!; try done; try lia.
    intros Hne. unfold chunk_id, caller_ip. cbn [owner_of]. rewrite Hown.
    split; [|lia]. intros [= ->]. by destruct Hne.
Qed.

(** What [handlePeerChunk] does on first contact. *)
Lemma handlePeerChunk_absent (peer : Peer) (zone : Registry) (req : Request.t) :
  Request.CallerIP req ≠ EmptyString →
  zone !! Request.ChunkID req = None →
  handlePeerChunk peer (Some zone) (post req) =
    (Some (<[Request.ChunkID req := Request.CallerIP req]> zone),
     JSON Response.zero).
Proof.
  intros Hip Habs. unfold handlePeerChunk, post. cbn [Method body].
  rewrite (decide_False (P := "POST" ≠ "POST")) by (intros H; by apply H).
  rewrite decide_False by done.
  by rewrite Habs.
Qed.

(** A request without a caller address is refused before the registry is
    read. *)
Lemma handlePeerChunk_anonymous (peer : Peer) (zone : Registry) (req : Request.t) :
  Request.CallerIP req = EmptyString →
  handlePeerChunk peer (Some zone) (post req)
  = (Some zone, HttpError "Missing caller_ip" 400).
Proof.
  intros Hip. unfold handlePeerChunk, post. cbn [Method body].
  rewrite (decide_False (P := "POST" ≠ "POST")) by (intros H; by apply H).
  by rewrite decide_True by done.
Qed.

(** C5, as amended.  A [PEER_CHUNK] request whose chunk the registry does
    not hold.  With a caller address: afterwards the registry maps the
    chunk to the caller's address and every other entry is as before; the
    reply has [success = false] and carries no owner value, its [message]
    and [new_ip] are empty.  Without a caller address: the request is
    refused with status 400 and the registry is as before. *)
Theorem handlePeerChunk_first_contact (peer : Peer) (zone : Registry)
    (req : Request.t) :
  zone !! Request.ChunkID req = None →
  let out := handlePeerChunk peer (Some zone) (post req) in
  (Request.CallerIP req ≠ EmptyString →
     owner_of out.1 (Request.ChunkID req) = Some (Request.CallerIP req) ∧
     (∀ c, c ≠ Request.ChunkID req → owner_of out.1 c = zone !! c) ∧
     ∃ res, out.2 = JSON res ∧
            Response.Success res = false ∧
            Response.Message res = EmptyString ∧
            Response.NewIP res = EmptyString) ∧
  (Request.CallerIP req = EmptyString →
     out = (Some zone, HttpError "Missing caller_ip" 400)).
Proof.
  intros Habs out. subst out. split.
  - intros Hip.
    rewrite (handlePeerChunk_absent peer zone req Hip Habs). simpl.
    split_and!.
    + apply lookup_insert_eq.
    + intros c Hc. by rewrite lookup_insert_ne.
    + by eexists.
  - apply handlePeerChunk_anonymous.
Qed.

(** X30 on an owner that keeps its chunk: [A] owns chunk [(0,0)] with
    three players and [B] asks with two; the reply of [A] fits into the
    central's buffer, the registry stays with [A] and the reply names
    [A]. *)
Lemma handlePeerChunk_load_decision_witness :
  let chunk :=
    Chunk.mk 0 0 Scenario.A "new chunk" (take 3 Wire.seven_players) false [] in
  let st := Server.mkState {[Scenario.c00 := chunk]} ∅ ∅ in
  let req := Request.central "GET_CHUNK" Scenario.c00 Scenario.B 2 in
  let len := λ res, String.length (Wire.json_Response res) in
  let out :=
    handlePeerChunk (Wire.owner_exchange Scenario.net_silent st len)
      (Some {[Scenario.c00 := Scenario.A]}) (post req) in
  out.1 = Some {[Scenario.c00 := Scenario.A]} ∧
  out.2 = JSON (Response.mk true Chunk.zero Scenario.A GameData.zero Scenario.A 0).
Proof.
  intros chunk st req len out.
  refine (proj1 (proj2 (handlePeerChunk_load_decision
            (Wire.owner_exchange Scenario.net_silent st len)
            {[Scenario.c00 := Scenario.A]} req Scenario.A
            (Response.mk true chunk EmptyString GameData.zero EmptyString 3)
            _ _ _)) _).
  - discriminate.
  - reflexivity.
  - vm_compute. reflexivity.
  - vm_compute. discriminate.
Defined.

(** C5 as stated fails: on first contact the reply is
    [Response{Success: false}], whose [message] is empty and is not the
    caller's address; and a request without a caller address is refused
    before the registry is read, so no entry is written for it. *)
Lemma handlePeerChunk_first_contact_counterexample :
  let c := ChunkID.mk 10 10 in
  let peer : Peer := λ _ _, PeerSendErr in
  let req := Request.central "GET_CHUNK" c "172.16.118.120:9000" 0 in
  let anonymous := Request.central "GET_CHUNK" c EmptyString 0 in
  ¬ (∃ res, (handlePeerChunk peer (Some ∅) (post req)).2 = JSON res ∧
            Response.Success res = false ∧
            Response.Message res = Request.CallerIP req) ∧
  owner_of (handlePeerChunk peer (Some ∅) (post anonymous)).1 c
  ≠ Some (Request.CallerIP anonymous).
Proof.
  intros c peer req anonymous. split.
  - intros (res & Hres & _ & Hmsg).
    vm_compute in Hres. injection Hres as <-. discriminate Hmsg.
  - vm_compute. discriminate.
Qed.

(** C5 amended, at scenario S3: the central has no entry for [(10,10)]
    and [B] asks. *)
Lemma handlePeerChunk_first_contact_witness :
  let c := ChunkID.mk 10 10 in
  let req := Request.central "GET_CHUNK" c "172.16.118.120:9000" 0 in
  owner_of (handlePeerChunk (λ _ _, PeerSendErr) (Some ∅) (post req)).1 c
  = Some "172.16.118.120:9000".
Proof.
  intros c req.
  refine (proj1 (proj1 (handlePeerChunk_first_contact (λ _ _, PeerSendErr) ∅ req _) _)).
  - reflexivity.
  - discriminate.
Defined.

(** One request changes the entry of a chunk only to the caller address
    that request carries for this chunk. *)
Lemma serve_rewrites (z : Zone) (call : Call) (c : ChunkID.t) :
  owner_of (serve z call).1 c = owner_of z c ∨
  ∃ ip, carried call = Some (c, ip) ∧ owner_of (serve z call).1 c = Some ip.
Proof.
  assert (Hins : ∀ (zone : Registry) (req : Request.t),
    owner_of (Some (<[Request.ChunkID req := Request.CallerIP req]> zone)) c
      = owner_of (Some zone) c ∨
    ∃ ip, Some (Request.ChunkID req, Request.CallerIP req) = Some (c, ip) ∧
          owner_of (Some (<[Request.ChunkID req := Request.CallerIP req]> zone)) c
            = Some ip).
  { intros zone req. destruct (decide (Request.ChunkID req = c)) as [<-|Hne].
    - right. eexists. split; [done|]. apply lookup_insert_eq.
    - left. cbn [owner_of]. by rewrite lookup_insert_ne. }
  destruct call as [r|peer r|r]; cbn [serve carried].
  - left. unfold enableCORS, handleJoin.
    repeat (case_decide || case_match); done.
  - unfold handlePeerChunk, fallback.
    destruct z as [zone|]; [|by left].
    destruct (decide (Method r ≠ "POST")) as [Hm|Hm].
    { by left. }
    rewrite decide_True by (by apply dec_stable).
    destruct (body r) as [| |req]; try by left.
    repeat (case_decide || case_match); simpl; try (by left); apply Hins.
  - unfold handleSentChunk.
    destruct (decide (Method r ≠ "POST")) as [Hm|Hm].
    { by left. }
    rewrite decide_True by (by apply dec_stable).
    destruct (body r) as [| |req]; try by left.
    destruct z as [zone|]; [|by left]. apply Hins.
Qed.

Lemma run_snoc (z : Zone) (calls : list Call) (call : Call) :
  run z (calls ++ [call]) = (serve (run z calls) call).1.
Proof. unfold run. by rewrite foldl_app. Qed.

(** C6 as stated fails: a POST to [/sentchunk] rewrites the registry
    entry of a chunk and is no [PEER_CHUNK] call. *)
Lemma registry_rewrite_counterexample :
  let c := ChunkID.mk 0 0 in
  let z := run init [PeerChunk (λ _ _, PeerSendErr)
                       (post (Request.central "GET_CHUNK" c "172.16.118.72:9000" 0))] in
  let call := SentChunk (post (Request.central EmptyString c "172.16.118.120:9000" 0)) in
  ¬ (owner_of (serve z call).1 c ≠ owner_of z c → is_PeerChunk call = true).
Proof.
  intros c z call H. enough (is_PeerChunk call = true) by done.
  apply H. vm_compute. discriminate.
Qed.

(** C6, as amended.  In every sequence of requests served from the
    initial registry, a request leaves the entry of a chunk as it was or
    is a decoded POST to [/chunk], [/peer_chunk] or [/sentchunk] that
    carries this chunk, and then the entry is the caller address of that
    request; so at the end the entry of a chunk is absent or is the caller
    address one of the requests carried for it. *)
Theorem registry_rewrites_by_caller (pre : list Call) (call : Call)
    (c : ChunkID.t) :
  let z := run init pre in
  let z' := (serve z call).1 in
  (owner_of z' c = owner_of z c ∨
   ∃ ip, carried call = Some (c, ip) ∧ owner_of z' c = Some ip) ∧
  (owner_of z c = None ∨
   ∃ earlier ip, earlier ∈ pre ∧ carried earlier = Some (c, ip) ∧
                 owner_of z c = Some ip).
Proof.
  intros z z'. split; [apply serve_rewrites|]. subst z z'. clear call.
  induction pre as [|call pre IH] using rev_ind.
  - by left.
  - rewrite run_snoc.
    destruct (serve_rewrites (run init pre) call c) as [Heq|(ip & Hc & Hip)].
    + rewrite Heq. destruct IH as [IH|(earlier & ip & Hin & Hc & Hip)].
      * by left.
      * right. exists earlier, ip. split_and!; [|done|done].
        apply elem_of_app. by left.
    + right. exists call, ip. split_and!; [|done|done].
      apply elem_of_app. right. by apply list_elem_of_singleton.
Qed.

(** C8.  The server assigned to a [JOIN] is a function of the player id
    alone: two POSTs with the same id get the same reply whatever the
    registry holds and whatever else the requests carry, under any one
    membership list; with the configured list the reply is a success
    naming one of the configured servers; and no request to [/join]
    changes the registry. *)
Theorem handleJoin_deterministic (z1 z2 : Zone) (player_id : string)
    (x1 y1 x2 y2 : Z) :
  let r1 := mkHttp "POST" (Decoded (PlayerJoinRequest.mk player_id x1 y1)) in
  let r2 := mkHttp "POST" (Decoded (PlayerJoinRequest.mk player_id x2 y2)) in
  (∀ servers, (handleJoin servers z1 r1).2 = (handleJoin servers z2 r2).2) ∧
  (∃ assigned,
     assigned ∈ serversList ∧
     randomServer serversList player_id = Some assigned ∧
     (serve z1 (Join r1)).2
       = JSON (Response.mk true Chunk.zero assigned GameData.zero EmptyString 0) ∧
     (serve z2 (Join r2)).2
       = JSON (Response.mk true Chunk.zero assigned GameData.zero EmptyString 0)) ∧
  (∀ z r, (serve z (Join r)).1 = z).
Proof.
  intros r1 r2. split_and!.
  - intros servers. unfold handleJoin, r1, r2. cbn [Method body PlayerJoinRequest.PlayerID].
    case_decide; [done|]. by destruct (randomServer servers player_id).
  - assert (∃ assigned, assigned ∈ serversList ∧
              randomServer serversList player_id = Some assigned)
      as (assigned & Hin & Hrs).
    { assert (is_Some (randomServer serversList player_id)) as [assigned Hrs].
      { unfold randomServer, serversList. repeat case_decide; by eexists. }
      exists assigned. split; [|done].
      by apply list_elem_of_lookup_2 in Hrs. }
    exists assigned. split_and!; [done|done|..];
      cbn [serve]; unfold enableCORS, handleJoin, r1, r2;
      cbn [Method body PlayerJoinRequest.PlayerID];
      rewrite (decide_False (P := "POST" = "OPTIONS")) by discriminate;
      rewrite (decide_False (P := "POST" ≠ "POST")) by (intros H; by apply H);
      by rewrite Hrs.
  - intros z r. cbn [serve]. unfold enableCORS, handleJoin.
    repeat (case_decide || case_match); done.
Qed.

End CentralSpec.

(** * Properties of the game server *)

Module ServerSpec.
Import Server Scenario.
Local Open Scope list_scope.

(** Unfolds the monad down to matches on the maps and on the oracles. *)
Ltac run_handler :=
  unfold handle, sendJSON, emit, set_zone, set_players, set_player_map,
    log_Message, panic, with_chunk, mbind, mret, M_bind, M_ret;
  cbn beta iota.

Lemma get_zone_Some (st : State) (tr : list Emit) (chunk_id : ChunkID.t)
    (chunk : Chunk.t) :
  zone_map st !! chunk_id = Some chunk →
  get_zone chunk_id st tr = Ok (chunk, true) st tr.
Proof. intros H. unfold get_zone. by rewrite H. Qed.

(** A lookup of a missing key yields the zero chunk. *)
Lemma get_zone_default (st : State) (tr : list Emit) (chunk_id : ChunkID.t) :
  ∃ ok, get_zone chunk_id st tr
        = Ok (default Chunk.zero (zone_map st !! chunk_id), ok) st tr.
Proof. unfold get_zone. destruct (zone_map st !! chunk_id); by eexists. Qed.

(** ** [DLT_CUBE] *)

Lemma first_match_Some (cube_id : string) (cells : list Cube.t) (n i : nat) :
  first_match cube_id cells n = Some i →
  ∃ l1 cube l2,
    cells = l1 ++ cube :: l2 ∧ Cube.ID cube = cube_id ∧
    (∀ x, x ∈ l1 → Cube.ID x ≠ cube_id) ∧ i = (n + length l1)%nat.
Proof.
  revert n. induction cells as [|cell rest IH]; intros n Hfm; [done|].
  cbn [first_match] in Hfm. case_decide as Hid.
  - injection Hfm as <-. exists [], cell, rest.
    split_and!; first [done | simpl; lia | idtac].
    intros x Hx. by apply elem_of_nil in Hx.
  - destruct (IH _ Hfm) as (l1 & cube & l2 & -> & Hcube & Hl1 & ->).
    exists (cell :: l1), cube, l2.
    split_and!; first [done | simpl; lia | idtac].
    intros x [->|Hx]%elem_of_cons; [done|by apply Hl1].
Qed.

Lemma first_match_is_Some (cube_id : string) (cells : list Cube.t) (n : nat) :
  (∃ cube, cube ∈ cells ∧ Cube.ID cube = cube_id) →
  is_Some (first_match cube_id cells n).
Proof.
  intros (cube & Hin & Hid). revert n.
  induction cells as [|cell rest IH]; intros n.
  - by apply elem_of_nil in Hin.
  - cbn [first_match]. case_decide; [by eexists|].
    apply elem_of_cons in Hin as [->|Hin]; [done|by apply IH].
Qed.

(** Swap-remove at the position of [cube] keeps the other cubes, the last
    one moved into the hole. *)
Lemma deleteFromList_at (l1 l2 : list Cube.t) (cube : Cube.t) :
  ∃ s, deleteFromList (l1 ++ cube :: l2) (length l1) = Some s ∧
       s ≡ₚ l1 ++ l2.
Proof.
  unfold deleteFromList.
  destruct l2 as [|y l2 _] using rev_ind.
  - exists l1. split; [|by rewrite app_nil_r].
    rewrite length_app. cbn [length].
    replace (length l1 + 1 - 1)%nat with (length l1 + 0)%nat by lia.
    rewrite lookup_app_r by lia.
    replace (length l1 + 0 - length l1)%nat with 0%nat by lia.
    cbn [lookup list_lookup]. rewrite decide_True by lia.
    rewrite insert_app_r_alt by lia.
    replace (length l1 - length l1)%nat with 0%nat by lia.
    cbn [insert list_insert]. replace (length l1 + 0)%nat with (length l1) by lia.
    by rewrite take_app_length.
  - exists (l1 ++ y :: l2). split.
    + assert (Hlen : (length (l1 ++ cube :: l2 ++ [y]) - 1
                      = length (l1 ++ cube :: l2))%nat).
      { rewrite !length_app. cbn [length]. rewrite length_app. simpl. lia. }
      rewrite Hlen.
      replace (l1 ++ cube :: l2 ++ [y]) with ((l1 ++ cube :: l2) ++ [y])
        by (by rewrite <- app_assoc).
      rewrite lookup_app_r by lia. rewrite Nat.sub_diag. cbn [lookup list_lookup].
      rewrite decide_True by (rewrite !length_app; simpl; lia).
      rewrite <- app_assoc. cbn [app].
      rewrite insert_app_r_alt by lia. rewrite Nat.sub_diag.
      cbn [insert list_insert].
      replace (l1 ++ y :: l2 ++ [y]) with ((l1 ++ y :: l2) ++ [y])
        by (by rewrite <- app_assoc).
      replace (length (l1 ++ cube :: l2)) with (length (l1 ++ y :: l2))
        by (rewrite !length_app; simpl; lia).
      by rewrite take_app_length.
    + by rewrite (Permutation_app_comm l2 [y]).
Qed.

Lemma NoDup_ids_others (l1 l2 : list Cube.t) (cube x : Cube.t) :
  NoDup (Cube.ID <$> (l1 ++ cube :: l2)) →
  x ∈ l1 ++ l2 → Cube.ID x ≠ Cube.ID cube.
Proof.
  rewrite fmap_app, fmap_cons. intros Hnd Hx Heq.
  apply NoDup_app in Hnd as (_ & Hdisj & Hnd).
  apply NoDup_cons in Hnd as [Hnotin _].
  apply elem_of_app in Hx as [Hx|Hx].
  - apply (Hdisj (Cube.ID x)).
    + by apply list_elem_of_fmap_2.
    + rewrite Heq. by left.
  - apply Hnotin. rewrite <- Heq. by apply list_elem_of_fmap_2.
Qed.

Lemma filter_keeps_all (cube_id : string) (l : list Cube.t) :
  (∀ x, x ∈ l → Cube.ID x ≠ cube_id) →
  filter (λ cube, Cube.ID cube ≠ cube_id) l = l.
Proof.
  induction l as [|x l IH]; intros Hall; [done|].
  rewrite filter_cons_True by (apply Hall; by left).
  f_equal. apply IH. intros y Hy. apply Hall. by right.
Qed.

(** C7.  [DLT_CUBE] of a cube id that occurs in the chunk's cells, the
    cube ids of the chunk being pairwise distinct: the handler ends, the
    chunk it stores has no cube with that id and one cell less (the other
    cubes are all kept), its [is_dirty] is set and its other fields are as
    before, and the reply has [success = true]. *)
Theorem handleDltCube_removes (st : State) (req : Request.t) (chunk : Chunk.t) :
  zone_map st !! Request.ChunkID req = Some chunk →
  (∃ cube, cube ∈ Chunk.Cells chunk ∧ Cube.ID cube = Request.CubeID req) →
  NoDup (Cube.ID <$> Chunk.Cells chunk) →
  ∃ stored res,
    handle (handleDltCube req) st
    = Ok () (with_chunk st (Request.ChunkID req) stored) [SendJSON res] ∧
    Response.Success res = true ∧
    (∀ cube, cube ∈ Chunk.Cells stored → Cube.ID cube ≠ Request.CubeID req) ∧
    S (length (Chunk.Cells stored)) = length (Chunk.Cells chunk) ∧
    Chunk.Cells stored
    ≡ₚ filter (λ cube, Cube.ID cube ≠ Request.CubeID req) (Chunk.Cells chunk) ∧
    Chunk.IsDirty stored = true ∧
    Chunk.set_Cells (Chunk.Cells chunk) (Chunk.set_IsDirty (Chunk.IsDirty chunk) stored)
    = chunk.
Proof.
  intros Hzone Hex Hnd.
  destruct (first_match_is_Some _ _ 0%nat Hex) as [i Hfm].
  destruct (first_match_Some _ _ _ _ Hfm) as (l1 & cube & l2 & Hcells & Hid & Hl1 & ->).
  destruct (deleteFromList_at l1 l2 cube) as (cells & Hdel & Hperm).
  exists (Chunk.set_IsDirty true (Chunk.set_Cells cells chunk)),
         (reply true "Deleted Cube").
  rewrite Hcells in Hnd.
  assert (Hother : ∀ x, x ∈ l1 ++ l2 → Cube.ID x ≠ Request.CubeID req).
  { intros x Hx. rewrite <- Hid. by eapply NoDup_ids_others. }
  cbn [Chunk.set_IsDirty Chunk.set_Cells Chunk.Cells Chunk.IsDirty].
  split_and!.
  - unfold handleDltCube. run_handler.
    rewrite (get_zone_Some _ _ _ _ Hzone), Hfm.
    rewrite <- Hcells in Hdel. cbn [Nat.add]. by rewrite Hdel.
  - done.
  - intros x Hx. apply Hother. by rewrite <- Hperm.
  - rewrite Hcells, Hperm, !length_app. simpl. lia.
  - rewrite Hperm, Hcells, filter_app, filter_cons_False by (intros H; by apply H).
    rewrite !filter_keeps_all; [done|..].
    + intros x Hx. apply Hother, elem_of_app. by right.
    + intros x Hx. apply Hother, elem_of_app. by left.
  - done.
  - by destruct chunk.
Qed.

(** C7 on a chunk with the cubes [k1], [k2], [k3]: deleting [k1] moves
    [k3] into its place. *)
Lemma handleDltCube_removes_witness :
  let c := ChunkID.mk 0 0 in
  let k1 := Cube.mk "k1" 3 5 0 "#ff0000" in
  let k2 := Cube.mk "k2" 3 5 1 "#00ff00" in
  let k3 := Cube.mk "k3" 4 5 0 "#0000ff" in
  let chunk := Chunk.mk 0 0 "172.16.118.72:9000" "new chunk" [] false [k1; k2; k3] in
  let st := mkState {[c := chunk]} ∅ ∅ in
  let req := Request.mk "DLT_CUBE" c EmptyString Player.zero false Chunk.zero
               false 0 EmptyString Cube.zero "k1" in
  ∃ stored res,
    handle (handleDltCube req) st = Ok () (with_chunk st c stored) [SendJSON res] ∧
    Response.Success res = true ∧
    (∀ cube, cube ∈ Chunk.Cells stored → Cube.ID cube ≠ "k1") ∧
    S (length (Chunk.Cells stored)) = 3%nat ∧
    Chunk.Cells stored ≡ₚ filter (λ cube, Cube.ID cube ≠ "k1") [k1; k2; k3] ∧
    Chunk.IsDirty stored = true ∧
    Chunk.set_Cells [k1; k2; k3] (Chunk.set_IsDirty false stored) = chunk.
Proof.
  intros c k1 k2 k3 chunk st req.
  apply (handleDltCube_removes st req chunk).
  - reflexivity.
  - exists k1. split; [by left|reflexivity].
  - apply (bool_decide_unpack _). by vm_compute.
Defined.

(** ** [MERGE] *)

Lemma for_range_append (incoming : list Player.t) (chunk : Chunk.t) :
  for_range incoming
    (λ player chunk,
       Chunk.set_PlayerList (Chunk.PlayerList chunk ++ [player]) chunk)
    chunk
  = Chunk.set_PlayerList (Chunk.PlayerList chunk ++ incoming) chunk.
Proof.
  unfold for_range. revert chunk.
  induction incoming as [|player incoming IH]; intros chunk.
  - destruct chunk. unfold Chunk.set_PlayerList. simpl. by rewrite app_nil_r.
  - cbn [foldl]. rewrite IH. unfold Chunk.set_PlayerList. simpl.
    by rewrite <- app_assoc.
Qed.

(** C9.  [MERGE] for a chunk the receiver holds: the stored chunk keeps
    its cells, data, owner address, dirty flag and coordinates; its player
    list is the old one followed by the incoming chunk's players in their
    order; nothing else of the incoming chunk is used. *)
Theorem handleMergeChunk_present (st : State) (req : Request.t)
    (chunk : Chunk.t) :
  zone_map st !! Request.ChunkID req = Some chunk →
  ∃ merged,
    handle (handleMergeChunk req) st
    = Ok () (with_chunk st (Request.ChunkID req) merged)
        [SendJSON (reply true "Merged Chunk")] ∧
    Chunk.PlayerList merged
    = Chunk.PlayerList chunk ++ Chunk.PlayerList (Request.Chunk req) ∧
    Chunk.Cells merged = Chunk.Cells chunk ∧
    Chunk.Data merged = Chunk.Data chunk ∧
    Chunk.ServerIP merged = Chunk.ServerIP chunk ∧
    Chunk.IsDirty merged = Chunk.IsDirty chunk ∧
    Chunk.IDX merged = Chunk.IDX chunk ∧
    Chunk.IDY merged = Chunk.IDY chunk.
Proof.
  intros Hzone.
  exists (Chunk.set_PlayerList
            (Chunk.PlayerList chunk ++ Chunk.PlayerList (Request.Chunk req)) chunk).
  split; [|done].
  unfold handleMergeChunk. run_handler.
  rewrite (get_zone_Some _ _ _ _ Hzone). cbn [negb].
  by rewrite for_range_append.
Qed.

(** C9 at a concrete merge: the receiver holds the chunk with player [p1]
    and one cube, the incoming chunk brings [p2] and another cube. *)
Lemma handleMergeChunk_present_witness :
  let c := ChunkID.mk 0 0 in
  let p1 := Player.mk "p1" 0 0 "172.16.118.72:9000" 5 c in
  let p2 := Player.mk "p2" 1 1 "172.16.118.120:9000" 5 c in
  let k1 := Cube.mk "k1" 3 5 0 "#ff0000" in
  let k2 := Cube.mk "k2" 4 5 0 "#00ff00" in
  let chunk := Chunk.mk 0 0 "172.16.118.72:9000" "new chunk" [p1] false [k1] in
  let incoming := Chunk.mk 0 0 "172.16.118.120:9000" "other" [p2] true [k2] in
  let st := mkState {[c := chunk]} ∅ ∅ in
  ∃ merged,
    handle (handleMergeChunk (Request.merge c incoming)) st
    = Ok () (with_chunk st c merged) [SendJSON (reply true "Merged Chunk")] ∧
    Chunk.PlayerList merged = [p1; p2] ∧
    Chunk.Cells merged = [k1] ∧
    Chunk.Data merged = "new chunk" ∧
    Chunk.ServerIP merged = "172.16.118.72:9000" ∧
    Chunk.IsDirty merged = false ∧
    Chunk.IDX merged = 0 ∧
    Chunk.IDY merged = 0.
Proof.
  intros c p1 p2 k1 k2 chunk incoming st.
  apply (handleMergeChunk_present st (Request.merge c incoming) chunk).
  reflexivity.
Defined.

(** ** [ADD_CUBE] *)

(** C10.  [ADD_CUBE] always ends with the reply [success = true]; the
    chunk it stores under the request's chunk id is the one found there,
    or the zero chunk when there was none, with the cube appended to its
    cells and [is_dirty] set; no other field is read, the owner address
    included.  When the chunk was absent the stored chunk has an empty
    player list and an empty owner address. *)
Theorem handleAddCube_appends (st : State) (req : Request.t) :
  let chunk_id := Request.ChunkID req in
  let chunk := default Chunk.zero (zone_map st !! chunk_id) in
  let stored :=
    Chunk.mk (Chunk.IDX chunk) (Chunk.IDY chunk) (Chunk.ServerIP chunk)
      (Chunk.Data chunk) (Chunk.PlayerList chunk) true
      (Chunk.Cells chunk ++ [Request.Cube req]) in
  ∃ st',
    handle (handleAddCube req) st = Ok () st' [SendJSON (reply true "Added Cube")] ∧
    Response.Success (reply true "Added Cube") = true ∧
    zone_map st' !! chunk_id = Some stored ∧
    (∀ c, c ≠ chunk_id → zone_map st' !! c = zone_map st !! c) ∧
    players st' = players st ∧ player_map st' = player_map st ∧
    last (Chunk.Cells stored) = Some (Request.Cube req) ∧
    Chunk.IsDirty stored = true ∧
    (zone_map st !! chunk_id = None →
       stored = Chunk.mk 0 0 EmptyString EmptyString [] true [Request.Cube req]).
Proof.
  intros chunk_id chunk stored.
  exists (with_chunk st chunk_id stored). split_and!.
  - unfold handleAddCube. run_handler. fold chunk_id.
    by destruct (get_zone_default st [] chunk_id) as [ok ->].
  - done.
  - apply lookup_insert_eq.
  - intros c Hc. cbn [with_chunk zone_map]. by rewrite lookup_insert_ne.
  - done.
  - done.
  - cbn [stored Chunk.Cells]. apply last_snoc.
  - done.
  - intros Habs. subst stored chunk. by rewrite Habs.
Qed.

(** ** [FROM_CENTRAL] *)

(** The loops that assign [player.ServerIP] assign to the iteration
    variable, a copy of the slice element: the chunk comes out as it went
    in. *)
Lemma for_range_local_copy (ip : string) (pl : list Player.t) (chunk : Chunk.t) :
  for_range pl
    (λ player chunk, let player := Player.set_ServerIP ip player in chunk)
    chunk
  = chunk.
Proof. unfold for_range. by induction pl. Qed.

Lemma yielded_PlayerList (ip : string) (chunk : Chunk.t) :
  Chunk.PlayerList (yielded ip chunk) = Chunk.PlayerList chunk.
Proof. done. Qed.

(** [FROM_CENTRAL] when the caller has at least as many players: the
    chunk is stored with the caller as owner and dirty, then [merge] is
    called, and the reply is sent only if [merge] returned a response. *)
Lemma handleCentralPeerReq_yield (net : Net) (st : State) (req : Request.t) :
  let chunk_id := Request.ChunkID req in
  let caller_ip := Request.CallerIP req in
  let chunk := default Chunk.zero (zone_map st !! chunk_id) in
  let my_count := Z.of_nat (length (Chunk.PlayerList chunk)) in
  let merge_req := Request.merge chunk_id (yielded caller_ip chunk) in
  (my_count ≤ Request.PlayerCount req)%Z →
  handle (handleCentralPeerReq net req) st =
    match merge_io net merge_req caller_ip with
    | MergeAck _ =>
      Ok () (with_chunk st chunk_id (yielded caller_ip chunk))
        [SendMerge caller_ip merge_req;
         SendJSON (Response.mk true (yielded caller_ip chunk) EmptyString GameData.zero EmptyString
                     my_count)]
    | MergeNoAck =>
      Abort NilDereference (with_chunk st chunk_id (yielded caller_ip chunk))
        [SendMerge caller_ip merge_req]
    | MergeSendErr =>
      Abort NilDereference (with_chunk st chunk_id (yielded caller_ip chunk)) []
    | MergeFatal =>
      Abort LogFatal (with_chunk st chunk_id (yielded caller_ip chunk)) []
    end.
Proof.
  intros chunk_id caller_ip chunk my_count merge_req Hle.
  unfold handleCentralPeerReq, merge. run_handler. fold chunk_id caller_ip.
  destruct (get_zone_default st [] chunk_id) as [ok ->]. fold chunk my_count.
  rewrite decide_True by lia.
  rewrite (for_range_local_copy caller_ip).
  change (Chunk.set_IsDirty true (Chunk.set_ServerIP caller_ip chunk))
    with (yielded caller_ip chunk).
  fold merge_req.
  by destruct (merge_io net merge_req caller_ip).
Qed.

(** [FROM_CENTRAL] when the caller has fewer players: nothing is stored
    and the reply carries the chunk and the local count. *)
Lemma handleCentralPeerReq_keep (net : Net) (st : State) (req : Request.t) :
  let chunk := default Chunk.zero (zone_map st !! Request.ChunkID req) in
  let my_count := Z.of_nat (length (Chunk.PlayerList chunk)) in
  (Request.PlayerCount req < my_count)%Z →
  handle (handleCentralPeerReq net req) st
  = Ok () st [SendJSON (Response.mk true chunk EmptyString GameData.zero EmptyString my_count)].
Proof.
  intros chunk my_count Hlt.
  unfold handleCentralPeerReq. run_handler.
  destruct (get_zone_default st [] (Request.ChunkID req)) as [ok ->].
  fold chunk my_count. by rewrite decide_False by lia.
Qed.

(** ** [GET_DATA] *)

(** [GET_DATA] for a chunk the server holds without owning it, the central
    naming another server as owner and that server acknowledging the
    [MERGE]: the chunk is stored with the new owner and dirty, sent in a
    [MERGE], and then the entry is overwritten with the chunk of the
    reply, which carries none. *)
Lemma handleGetData_moved_away (serverIP : string) (net : Net) (st : State)
    (req : Request.t) (chunk : Chunk.t) (central_response ack : Response.t) :
  let chunk_id := Request.ChunkID req in
  let owner := Response.Message central_response in
  let centralReq :=
    Request.central "GET_CHUNK" chunk_id serverIP
      (Z.of_nat (length (Chunk.PlayerList chunk))) in
  let merge_req := Request.merge chunk_id (yielded owner chunk) in
  zone_map st !! chunk_id = Some chunk →
  Chunk.ServerIP chunk ≠ serverIP →
  central_io net centralReq = PostBody central_response →
  Response.Success central_response = true →
  owner ≠ serverIP →
  merge_io net merge_req owner = MergeAck ack →
  handle (handleGetData serverIP net req) st
  = Ok () (with_chunk st chunk_id Chunk.zero)
      [PostCentral centralReq; SendMerge owner merge_req;
       SendJSON (reply true owner)].
Proof.
  intros chunk_id owner centralReq merge_req Hzone Hnot Hcentral Hsucc Hown Hmerge.
  unfold handleGetData, post_central, merge. run_handler.
  fold chunk_id. rewrite !(get_zone_Some _ _ _ _ Hzone). cbn [andb].
  rewrite bool_decide_eq_false_2 by done.
  fold centralReq. rewrite Hcentral, Hsucc. cbn [negb]. fold owner.
  rewrite bool_decide_eq_true_2 by done.
  rewrite (for_range_local_copy owner).
  change (Chunk.set_IsDirty true (Chunk.set_ServerIP owner chunk))
    with (yielded owner chunk).
  fold merge_req. rewrite Hmerge. cbn [app zone_map players player_map].
  by rewrite insert_insert_eq.
Qed.

(** C2, at scenario S5 with the [MERGE] left unacknowledged: [A] owns
    chunk [(0,0)] with no player and [B] asks with two players.  [A]
    stores the chunk with [B] as owner and dirty and sends the [MERGE],
    then stops on the nil response of [merge]: no reply is sent. *)
Theorem handleCentralPeerReq_unacknowledged_merge :
  let chunk := Chunk.mk 0 0 A "new chunk" [] false [k1] in
  let st := mkState {[c00 := chunk]} ∅ ∅ in
  let req := Request.central "FROM_CENTRAL" c00 B 2 in
  handle (handleCentralPeerReq net_silent req) st
  = Abort NilDereference (with_chunk st c00 (yielded B chunk))
      [SendMerge B (Request.merge c00 (yielded B chunk))].
Proof.
  intros chunk st req.
  by rewrite (handleCentralPeerReq_yield net_silent st req).
Qed.

(** C3, at a server [A] that holds chunk [(0,0)] after having given it up
    to [B]: on [GET_DATA] the central names [B], [B] acknowledges the
    [MERGE], the handler ends, and the entry of the chunk is the zero
    chunk: its owner address is empty, not [B], and it is not dirty. *)
Theorem handleGetData_moved_away_clears_chunk :
  let chunk := Chunk.mk 0 0 B "new chunk" [p1] true [k1] in
  let st := mkState {[c00 := chunk]} ∅ ∅ in
  let req := Request.mk "GET_DATA" c00 EmptyString p2 false Chunk.zero false 0 EmptyString
               Cube.zero EmptyString in
  ∃ st' tr,
    handle (handleGetData A net_acks req) st = Ok () st' tr ∧
    zone_map st' !! c00 = Some Chunk.zero ∧
    Chunk.ServerIP Chunk.zero ≠ B ∧
    Chunk.IsDirty Chunk.zero = false.
Proof.
  intros chunk st req. do 2 eexists. split_and!.
  - by apply (handleGetData_moved_away A net_acks st req chunk
                (Response.mk true Chunk.zero B GameData.zero B 0)
                (reply true "Merged Chunk")).
  - apply lookup_insert_eq.
  - discriminate.
  - done.
Qed.

(** C4, at scenario S5 with one player in the chunk: [A] owns chunk
    [(0,0)] with player [p1], whose [server_ip] is [A], and gives it up to
    [B] on [FROM_CENTRAL]; afterwards the chunk that is stored, sent in
    the [MERGE] and returned has owner [B] and still the player [p1] with
    [server_ip] [A].  The same on [GET_DATA] at a server that holds the
    chunk when the central names [B]: the chunk sent in the [MERGE] still
    carries [p1] with [server_ip] [A]. *)
Theorem yield_keeps_player_ServerIP :
  let chunk := Chunk.mk 0 0 A "new chunk" [p1] false [] in
  let st := mkState {[c00 := chunk]} ∅ ∅ in
  let req := Request.central "FROM_CENTRAL" c00 B 1 in
  let get := Request.mk "GET_DATA" c00 EmptyString p2 false Chunk.zero false 0 EmptyString
               Cube.zero EmptyString in
  let moved := Chunk.mk 0 0 B "new chunk" [p1] true [] in
  handle (handleCentralPeerReq net_acks req) st
  = Ok () (with_chunk st c00 moved)
      [SendMerge B (Request.merge c00 moved);
       SendJSON (Response.mk true moved EmptyString GameData.zero EmptyString 1)] ∧
  handle (handleGetData A net_acks get) (with_chunk st c00 moved)
  = Ok () (with_chunk st c00 Chunk.zero)
      [PostCentral (Request.central "GET_CHUNK" c00 A 1);
       SendMerge B (Request.merge c00 moved);
       SendJSON (reply true B)] ∧
  ¬ (∀ player, player ∈ Chunk.PlayerList moved → Player.ServerIP player = B).
Proof.
  intros chunk st req get moved. split_and!.
  - by rewrite (handleCentralPeerReq_yield net_acks st req).
  - rewrite (handleGetData_moved_away A net_acks (with_chunk st c00 moved) get
               moved (Response.mk true Chunk.zero B GameData.zero B 0)
               (reply true "Merged Chunk")); done.
  - intros Hall. specialize (Hall p1). discriminate Hall. by left.
Qed.

End ServerSpec.

(** * Further properties of the central coordinator *)

Module CentralMore.
Import Central CentralRest.

(** X1.  [PEER_CHUNK] for a chunk the registry holds when the owner's
    reply does not arrive in time or does not decode: a caller that
    reports at least one player takes the chunk over, the registry entry
    becomes its address and the reply names it; a caller that reports
    none, or a negative count, leaves the registry as it is and is told
    the existing owner.  The reply is a success either way and carries no
    chunk. *)
Theorem handlePeerChunk_silent_owner (peer : Peer) (zone : Registry)
    (req : Request.t) (owner : string) :
  Request.CallerIP req ≠ EmptyString →
  zone !! Request.ChunkID req = Some owner →
  peer owner (from_central req) = PeerReadErr ∨
  peer owner (from_central req) = PeerBadJSON →
  let caller_ip := Request.CallerIP req in
  let out := handlePeerChunk peer (Some zone) (post req) in
  (0 < Request.PlayerCount req →
     out = (Some (<[Request.ChunkID req := caller_ip]> zone),
            JSON (Response.mk true Chunk.zero caller_ip GameData.zero caller_ip 0))) ∧
  ((Request.PlayerCount req ≤ 0)%Z →
     out = (Some zone,
            JSON (Response.mk true Chunk.zero owner GameData.zero owner 0))).
Proof.
  intros Hip Hown Hpeer caller_ip out. subst out.
  rewrite (CentralSpec.handlePeerChunk_present peer zone req owner Hip Hown).
  assert (Hfb : match peer owner (from_central req) with
                | PeerSendErr => (Some zone, HttpError "Internal server error" 500)
                | PeerReadErr | PeerBadJSON =>
                  fallback zone (Request.ChunkID req) owner req
                | PeerReply res =>
                  if decide (Response.PlayerCount res < Request.PlayerCount req) then
                    (Some (<[Request.ChunkID req := Request.CallerIP req]> zone),
                     JSON (Response.mk true (Response.Chunk res) (Request.CallerIP req)
                             GameData.zero (Request.CallerIP req) 0))
                  else
                    (Some zone,
                     JSON (Response.mk true Chunk.zero owner GameData.zero owner 0))
                end = fallback zone (Request.ChunkID req) owner req).
  { by destruct Hpeer as [-> | ->]. }
  rewrite Hfb. unfold fallback. split; intros Hload.
  - by rewrite decide_True by lia.
  - by rewrite decide_False by lia.
Qed.

(** X1 at scenario S5 with the owner silent: [B] reports two players and
    takes the chunk over. *)
Lemma handlePeerChunk_silent_owner_witness :
  let c := ChunkID.mk 0 0 in
  let req := Request.central "GET_CHUNK" c "172.16.118.120:9000" 2 in
  let zone : Registry := {[c := "172.16.118.72:9000"]} in
  handlePeerChunk (λ _ _, PeerReadErr) (Some zone) (post req)
  = (Some (<[c := "172.16.118.120:9000"]> zone),
     JSON (Response.mk true Chunk.zero "172.16.118.120:9000" GameData.zero
             "172.16.118.120:9000" 0)).
Proof.
  intros c req zone.
  refine (proj1 (handlePeerChunk_silent_owner (λ _ _, PeerReadErr) zone req
                   "172.16.118.72:9000" _ _ _) _).
  - discriminate.
  - reflexivity.
  - by left.
  - reflexivity.
Defined.

(** X2.  Whatever the method, the body and the network do, a call of
    [handlePeerChunk] that does not answer with a JSON response leaves the
    registry exactly as it was: the uninitialised map, a method other than
    POST, a missing or undecodable body, a missing caller address and a
    failed send all return before any write. *)
Theorem handlePeerChunk_error_keeps_registry (peer : Peer) (z : Zone)
    (r : HttpRequest Request.t) :
  (∀ res, (handlePeerChunk peer z r).2 ≠ JSON res) →
  (handlePeerChunk peer z r).1 = z.
Proof.
  unfold handlePeerChunk, fallback. intros Hnot.
  destruct z as [zone|]; [|done].
  destruct (decide (Method r ≠ "POST")); [done|].
  destruct (body r) as [| |req]; [done|done|].
  destruct (decide (Request.CallerIP req = EmptyString)); [done|].
  destruct (zone !! Request.ChunkID req) as [owner|].
  - destruct (peer owner _); [done|..];
      repeat case_decide; try done; by edestruct Hnot.
  - by edestruct Hnot.
Qed.

(** X2 on a GET request. *)
Lemma handlePeerChunk_error_keeps_registry_witness :
  (handlePeerChunk (λ _ _, PeerReadErr) (Some {[ChunkID.mk 0 0 := "172.16.118.72:9000"]})
     (mkHttp "GET" (Decoded (Request.central "GET_CHUNK" (ChunkID.mk 0 0)
                                "172.16.118.120:9000" 2)))).1
  = Some {[ChunkID.mk 0 0 := "172.16.118.72:9000"]}.
Proof.
  apply handlePeerChunk_error_keeps_registry. intros res. discriminate.
Defined.

(** X3.  The registry never forgets: over every sequence of requests to
    the registered routes, a chunk that has an owner keeps having one, and
    the map [main] made stays a map. *)
Theorem registry_never_forgets (calls : list Call) (z : Zone) (c : ChunkID.t) :
  (is_Some (owner_of z c) → is_Some (owner_of (run z calls) c)) ∧
  (is_Some z → is_Some (run z calls)).
Proof.
  induction calls as [|call calls IH] using rev_ind; [done|].
  rewrite CentralSpec.run_snoc. destruct IH as [IHc IHz]. split.
  - intros Hc. specialize (IHc Hc).
    destruct (CentralSpec.serve_rewrites (run z calls) call c)
      as [-> | (ip & _ & ->)]; [done|by eexists].
  - intros Hz. specialize (IHz Hz). destruct IHz as [zone Hzone].
    rewrite Hzone. clear.
    destruct call as [r|peer r|r]; cbn [serve];
      unfold enableCORS, handleJoin, handlePeerChunk, handleSentChunk, fallback;
      repeat (case_decide || case_match); by eexists.
Qed.

(** X4.  A [PEER_CHUNK] request by the server the registry already names
    for the chunk never changes the registry, whatever the exchange with
    the owner gives: every write of the handler writes the caller's
    address, which is the entry. *)
Theorem handlePeerChunk_owner_asks_again (peer : Peer) (zone : Registry)
    (req : Request.t) :
  zone !! Request.ChunkID req = Some (Request.CallerIP req) →
  (handlePeerChunk peer (Some zone) (post req)).1 = Some zone.
Proof.
  intros Hown.
  destruct (decide (Request.CallerIP req = EmptyString)) as [Hip|Hip].
  - by rewrite CentralSpec.handlePeerChunk_anonymous.
  - rewrite (CentralSpec.handlePeerChunk_present peer zone req _ Hip Hown).
    unfold fallback.
    destruct (peer _ _); repeat case_decide; cbn [fst]; try done;
      by rewrite insert_id.
Qed.

(** X4 after a first contact: [B] registers chunk [(10,10)] and asks
    again while the exchange with itself times out. *)
Lemma handlePeerChunk_owner_asks_again_witness :
  let c := ChunkID.mk 10 10 in
  let req := Request.central "GET_CHUNK" c "172.16.118.120:9000" 3 in
  (handlePeerChunk (λ _ _, PeerReadErr) (Some {[c := "172.16.118.120:9000"]})
     (post req)).1
  = Some {[c := "172.16.118.120:9000"]}.
Proof.
  intros c req.
  apply (handlePeerChunk_owner_asks_again (λ _ _, PeerReadErr)
           {[c := "172.16.118.120:9000"]} req).
  reflexivity.
Defined.

(** X5.  A POST to [/sentchunk] takes the chunk over without any check:
    whatever the registry held and even with an empty caller address, the
    entry is the request's caller address afterwards, the other entries
    are untouched and nothing is written to the response; sending it
    again changes nothing more; and a later [PEER_CHUNK] of another server
    for that chunk consults the address that was written. *)
Theorem handleSentChunk_takes_over (peer : Peer) (zone : Registry)
    (sent req : Request.t) :
  let out := handleSentChunk (Some zone) (post sent) in
  out = (Some (<[Request.ChunkID sent := Request.CallerIP sent]> zone),
         NothingWritten) ∧
  (∀ c, c ≠ Request.ChunkID sent → owner_of out.1 c = zone !! c) ∧
  handleSentChunk out.1 (post sent) = out ∧
  (Request.ChunkID req = Request.ChunkID sent →
   Request.CallerIP req ≠ EmptyString →
   peer (Request.CallerIP sent) (from_central req) = PeerSendErr →
   handlePeerChunk peer out.1 (post req)
   = (out.1, HttpError "Internal server error" 500)).
Proof.
  intros out.
  assert (Hout : out = (Some (<[Request.ChunkID sent := Request.CallerIP sent]> zone),
                        NothingWritten)).
  { subst out. unfold handleSentChunk, post. cbn [Method body].
    by rewrite (decide_False (P := "POST" ≠ "POST")) by (intros H; by apply H). }
  split_and!.
  - done.
  - intros c Hc. rewrite Hout. cbn [fst owner_of]. by rewrite lookup_insert_ne.
  - rewrite Hout. cbn [fst]. unfold handleSentChunk, post. cbn [Method body].
    rewrite (decide_False (P := "POST" ≠ "POST")) by (intros H; by apply H).
    by rewrite insert_insert_eq.
  - intros Hc Hip Hpeer. rewrite Hout. cbn [fst].
    rewrite (CentralSpec.handlePeerChunk_present peer _ req (Request.CallerIP sent) Hip).
    + by rewrite Hpeer.
    + rewrite Hc. apply lookup_insert_eq.
Qed.

(** X6.  [handleFetchChunk] always hands the chunk to the caller: the
    entry of the normalised chunk id is the caller's address afterwards
    and the other entries are untouched; the reply is a success with the
    message [assigned] exactly when the chunk had no owner, and otherwise
    a failure whose message is the owner that was replaced.  The
    normalisation truncates toward zero, so every coordinate strictly
    between -32 and 32 falls into chunk 0. *)
Theorem handleFetchChunk_takes_over (zone : Registry) (req : Request.t) :
  let x := ChunkID.IDX (Request.ChunkID req) in
  let y := ChunkID.IDY (Request.ChunkID req) in
  let chunkID := ChunkID.mk (Z.quot x 32) (Z.quot y 32) in
  let out := handleFetchChunk (Some zone) (post req) in
  owner_of out.1 chunkID = Some (Request.CallerIP req) ∧
  (∀ c, c ≠ chunkID → owner_of out.1 c = zone !! c) ∧
  (∃ res, out.2 = JSON res ∧
          (Response.Success res = true ↔ zone !! chunkID = None) ∧
          (zone !! chunkID = None → Response.Message res = "assigned") ∧
          (∀ owner, zone !! chunkID = Some owner → Response.Message res = owner)) ∧
  (-32 < x < 32 → ChunkID.IDX chunkID = 0) ∧
  (-32 < y < 32 → ChunkID.IDY chunkID = 0).
Proof.
  intros x y chunkID out. subst out.
  unfold handleFetchChunk, post. cbn [Method body].
  rewrite (decide_False (P := "POST" ≠ "POST")) by (intros H; by apply H).
  fold x y chunkID. cbn [fst snd owner_of]. split_and!.
  - apply lookup_insert_eq.
  - intros c Hc. by rewrite lookup_insert_ne.
  - eexists. split; [done|]. destruct (zone !! chunkID) as [owner|]; cbn.
    + split_and!; [done|done|]. by intros ? [= ->].
    + split_and!; done.
  - intros Hx. cbn [chunkID ChunkID.IDX]. apply Z.quot_small_iff; [lia|].
    rewrite Z.abs_lt. cbn. lia.
  - intros Hy. cbn [chunkID ChunkID.IDY]. apply Z.quot_small_iff; [lia|].
    rewrite Z.abs_lt. cbn. lia.
Qed.

(** X7.  [randomServer] sends the ids [1] and [2] to the first and second
    configured server and every other id to the third, so it answers for
    every id exactly when at least three servers are configured; with
    fewer, a [JOIN] of any other id ends in the index panic and no
    reply. *)
Theorem randomServer_needs_three (servers : list string) :
  randomServer servers "1" = servers !! 0%nat ∧
  randomServer servers "2" = servers !! 1%nat ∧
  (∀ id, id ≠ "1" → id ≠ "2" → randomServer servers id = servers !! 2%nat) ∧
  ((∀ id, is_Some (randomServer servers id)) ↔ (3 ≤ length servers)%nat) ∧
  ((length servers < 3)%nat →
   ∀ z x y, handleJoin servers z
              (mkHttp "POST" (Decoded (PlayerJoinRequest.mk "3" x y)))
            = (z, Panicked)).
Proof.
  assert (Hother : ∀ id, id ≠ "1" → id ≠ "2" →
                         randomServer servers id = servers !! 2%nat).
  { intros id H1 H2. unfold randomServer.
    rewrite decide_False by done. by rewrite decide_False by done. }
  split_and!; [done|done|done| |].
  - split.
    + intros Hall. specialize (Hall "3"). rewrite Hother in Hall by done.
      by apply lookup_lt_is_Some in Hall.
    + intros Hlen id. unfold randomServer.
      repeat case_decide; apply lookup_lt_is_Some; simpl; lia.
  - intros Hlen z x y. unfold handleJoin.
    cbn [Method body PlayerJoinRequest.PlayerID].
    rewrite (decide_False (P := "POST" ≠ "POST")) by (intros H; by apply H).
    rewrite Hother by done.
    by rewrite (lookup_ge_None_2 servers 2) by lia.
Qed.

End CentralMore.

(** * Further properties of the game server *)

Module ServerMore.
Import Server ServerLoop.
Local Open Scope list_scope.

(** Unfolds a handler down to matches on the maps and on the oracles. *)
Ltac run :=
  unfold handle, sendJSON, emit, set_zone, set_players, set_player_map,
    delete_player, log_Message, panic, with_chunk, mbind, mret, M_bind, M_ret;
  cbn beta iota.

(** ** Cubes *)

(** X8.  [deleteFromList] panics exactly when the index is not inside the
    slice, the empty slice included; otherwise the result is one shorter,
    holds the last cube at the index (unless the index was the last one)
    and the old cube everywhere else. *)
Theorem deleteFromList_bounds (s : list Cube.t) (idx : nat) :
  (deleteFromList s idx = None ↔ (length s ≤ idx)%nat) ∧
  (∀ s', deleteFromList s idx = Some s' →
     S (length s') = length s ∧
     (∀ i, (i < length s')%nat → i ≠ idx → s' !! i = s !! i) ∧
     ((idx < length s')%nat → s' !! idx = last s)).
Proof.
  unfold deleteFromList. rewrite last_lookup.
  replace (Nat.pred (length s)) with (length s - 1)%nat by lia.
  destruct (s !! (length s - 1)%nat) as [last_cube|] eqn:Hlast.
  - apply lookup_lt_Some in Hlast as Hlen.
    case_decide as Hidx.
    + split; [split; [done|lia]|]. intros s' [= <-].
      rewrite length_take, length_insert. split_and!; [lia|..].
      * intros i Hi Hne. rewrite lookup_take_lt by lia.
        by rewrite list_lookup_insert_ne.
      * intros Hi. rewrite lookup_take_lt by lia.
        by rewrite list_lookup_insert_eq by lia.
    + split; [split; [lia|done]|done].
  - apply lookup_ge_None in Hlast. split; [split; [lia|done]|done].
Qed.

Lemma first_match_None (cube_id : string) (cells : list Cube.t) (n : nat) :
  (∀ x, x ∈ cells → Cube.ID x ≠ cube_id) →
  first_match cube_id cells n = None.
Proof.
  revert n. induction cells as [|cell rest IH]; intros n Hall; [done|].
  cbn [first_match]. rewrite decide_False by (apply Hall; by left).
  apply IH. intros x Hx. apply Hall. by right.
Qed.

(** X9.  [DLT_CUBE] never stops on a fault and always answers
    [success = true] with the message [Deleted Cube]; the chunk it stores,
    the zero chunk when the server held none, is marked dirty.  When no
    cube has the id the cells are as before; when some have it, exactly
    one of them is removed, also when the id occurs more than once. *)
Theorem handleDltCube_always_replies (st : State) (req : Request.t) :
  let chunk := default Chunk.zero (zone_map st !! Request.ChunkID req) in
  ∃ cells,
    handle (handleDltCube req) st
    = Ok () (with_chunk st (Request.ChunkID req)
               (Chunk.set_IsDirty true (Chunk.set_Cells cells chunk)))
        [SendJSON (reply true "Deleted Cube")] ∧
    ((∀ cube, cube ∈ Chunk.Cells chunk → Cube.ID cube ≠ Request.CubeID req) →
       cells = Chunk.Cells chunk) ∧
    ((∃ cube, cube ∈ Chunk.Cells chunk ∧ Cube.ID cube = Request.CubeID req) →
       ∃ removed, Cube.ID removed = Request.CubeID req ∧
                  Chunk.Cells chunk ≡ₚ removed :: cells).
Proof.
  intros chunk.
  destruct (ServerSpec.get_zone_default st [] (Request.ChunkID req)) as [ok Hget].
  fold chunk in Hget.
  destruct (first_match (Request.CubeID req) (Chunk.Cells chunk) 0) as [i|] eqn:Hfm.
  - destruct (ServerSpec.first_match_Some _ _ _ _ Hfm)
      as (l1 & cube & l2 & Hcells & Hid & Hl1 & ->).
    destruct (ServerSpec.deleteFromList_at l1 l2 cube) as (cells & Hdel & Hperm).
    exists cells. split_and!.
    + unfold handleDltCube. run. rewrite Hget, Hfm.
      rewrite <- Hcells in Hdel. cbn [Nat.add]. by rewrite Hdel.
    + intros Hnone. destruct (Hnone cube); [|done].
      rewrite Hcells. apply elem_of_app. right. by left.
    + intros _. exists cube. split; [done|].
      by rewrite Hcells, Hperm, Permutation_middle.
  - exists (Chunk.Cells chunk). split_and!.
    + unfold handleDltCube. run. by rewrite Hget, Hfm.
    + done.
    + intros Hex. apply (ServerSpec.first_match_is_Some _ _ 0%nat) in Hex.
      rewrite Hfm in Hex. by destruct Hex.
Qed.

Lemma deleteFromList_last (l : list Cube.t) (x : Cube.t) :
  deleteFromList (l ++ [x]) (length l) = Some l.
Proof.
  unfold deleteFromList. rewrite length_app. cbn [length].
  replace (length l + 1 - 1)%nat with (length l) by lia.
  rewrite lookup_app_r by lia. rewrite Nat.sub_diag. cbn [lookup list_lookup].
  rewrite decide_True by lia.
  rewrite insert_app_r_alt by lia. rewrite Nat.sub_diag. cbn [insert list_insert].
  by rewrite take_app_length.
Qed.

Lemma first_match_app_last (cube_id : string) (l : list Cube.t) (x : Cube.t)
    (n : nat) :
  (∀ y, y ∈ l → Cube.ID y ≠ cube_id) → Cube.ID x = cube_id →
  first_match cube_id (l ++ [x]) n = Some (n + length l)%nat.
Proof.
  revert n. induction l as [|y l IH]; intros n Hall Hx.
  - cbn. rewrite decide_True by done. f_equal. lia.
  - cbn [app first_match]. rewrite decide_False by (apply Hall; by left).
    rewrite IH; [|intros z Hz; apply Hall; by right|done].
    f_equal. simpl. lia.
Qed.

(** The [switch] of the receive loop, one case at a time. *)
Lemma dispatch_case (serverIP : string) (net : Net) (req : Request.t) :
  (Request.Type_ req = "GET_DATA" →
     dispatch serverIP net req = handleGetData serverIP net req) ∧
  (Request.Type_ req = "FROM_CENTRAL" →
     dispatch serverIP net req = handleCentralPeerReq net req) ∧
  (Request.Type_ req = "UPDATE_DATA" →
     dispatch serverIP net req = handleUpdateData req) ∧
  (Request.Type_ req = "MOVE_PLAYER" →
     dispatch serverIP net req = handleMovePlayer req) ∧
  (Request.Type_ req = "GET_UPDATES" →
     dispatch serverIP net req = handleGetUpdates req) ∧
  (Request.Type_ req = "DLT_PLAYER" →
     dispatch serverIP net req = handleDeletePlayer req) ∧
  (Request.Type_ req = "READ_ONLY" →
     dispatch serverIP net req = handleReadOnly req) ∧
  (Request.Type_ req = "MERGE" →
     dispatch serverIP net req = handleMergeChunk req) ∧
  (Request.Type_ req = "ADD_CUBE" →
     dispatch serverIP net req = handleAddCube req) ∧
  (Request.Type_ req = "DLT_CUBE" →
     dispatch serverIP net req = handleDltCube req).
Proof.
  unfold dispatch. split_and!; intros ->; reflexivity.
Qed.

(** X10.  [ADD_CUBE] of a cube whose id is new to the chunk, followed by
    [DLT_CUBE] of that id, gives the cells back exactly as they were, in
    their order; the chunk stays marked dirty and both requests are
    answered. *)
Theorem add_then_delete_restores (serverIP : string) (net : Net) (st : State)
    (c : ChunkID.t) (cube : Cube.t) :
  let chunk := default Chunk.zero (zone_map st !! c) in
  (∀ x, x ∈ Chunk.Cells chunk → Cube.ID x ≠ Cube.ID cube) →
  main_loop serverIP net
    [Decodes (add_cube c cube); Decodes (dlt_cube c (Cube.ID cube))] st []
  = Ok () (with_chunk st c (Chunk.set_IsDirty true chunk))
      [SendJSON (reply true "Added Cube"); SendJSON (reply true "Deleted Cube")].
Proof.
  intros chunk Hnew.
  cbn [main_loop].
  destruct (dispatch_case serverIP net (add_cube c cube))
    as (_ & _ & _ & _ & _ & _ & _ & _ & Hadd & _).
  destruct (dispatch_case serverIP net (dlt_cube c (Cube.ID cube)))
    as (_ & _ & _ & _ & _ & _ & _ & _ & _ & Hdlt).
  rewrite Hadd, Hdlt by done.
  unfold handleAddCube, handleDltCube, add_cube, dlt_cube. run.
  cbn [Request.ChunkID Request.Cube Request.CubeID].
  destruct (ServerSpec.get_zone_default st [] c) as [ok ->]. fold chunk.
  rewrite (ServerSpec.get_zone_Some _ _ c
             (Chunk.set_IsDirty true
                (Chunk.set_Cells (Chunk.Cells chunk ++ [cube]) chunk)))
    by apply lookup_insert_eq.
  cbn [Chunk.set_IsDirty Chunk.set_Cells Chunk.Cells].
  rewrite (first_match_app_last _ _ _ 0 Hnew) by done. cbn [Nat.add].
  rewrite deleteFromList_last.
  cbn [zone_map players player_map app]. by rewrite insert_insert_eq.
Qed.

(** X10 on a chunk that holds the cube [k1]: [k2] is added and deleted. *)
Lemma add_then_delete_restores_witness :
  let c := ChunkID.mk 0 0 in
  let k1 := Cube.mk "k1" 3 5 0 "#ff0000" in
  let k2 := Cube.mk "k2" 3 5 1 "#00ff00" in
  let chunk := Chunk.mk 0 0 "172.16.118.72:9000" "new chunk" [] false [k1] in
  let st := mkState {[c := chunk]} ∅ ∅ in
  main_loop "172.16.118.72:9000" Scenario.net_acks
    [Decodes (add_cube c k2); Decodes (dlt_cube c "k2")] st []
  = Ok () (with_chunk st c (Chunk.set_IsDirty true chunk))
      [SendJSON (reply true "Added Cube"); SendJSON (reply true "Deleted Cube")].
Proof.
  intros c k1 k2 chunk st.
  apply (add_then_delete_restores "172.16.118.72:9000" Scenario.net_acks st c k2).
  intros x Hx. apply list_elem_of_singleton in Hx as ->. discriminate.
Defined.

(** ** [GET_DATA] *)

(** X11.  [GET_DATA] for a chunk whose local copy names this server as
    owner is answered from the local maps alone: nothing is sent to the
    central or to a peer whatever the network would do, the reply carries
    the stored chunk and this server's address, and the only change is the
    entry of the player in [players]; the player is not added to the
    chunk's player list nor to [player_map]. *)
Theorem handleGetData_owner (serverIP : string) (net : Net) (st : State)
    (req : Request.t) (chunk : Chunk.t) :
  zone_map st !! Request.ChunkID req = Some chunk →
  Chunk.ServerIP chunk = serverIP →
  handle (handleGetData serverIP net req) st
  = Ok () (mkState (zone_map st)
             (<[Player.ID (Request.Player req) := Request.ChunkID req]> (players st))
             (player_map st))
      [SendJSON (reply_chunk true chunk serverIP)].
Proof.
  intros Hzone Hown. unfold handleGetData. run.
  rewrite (ServerSpec.get_zone_Some _ _ _ _ Hzone). cbn [andb].
  by rewrite bool_decide_eq_true_2 by done.
Qed.

(** X11 at scenario S2: [A] owns chunk [(0,0)] and [p1] reads it. *)
Lemma handleGetData_owner_witness :
  let chunk := Chunk.mk 0 0 Scenario.A "new chunk" [Scenario.p1] true [Scenario.k1] in
  let st := mkState {[Scenario.c00 := chunk]} ∅ ∅ in
  let req := Client.request "GET_DATA" Scenario.p1 Scenario.c00 in
  handle (handleGetData Scenario.A Scenario.net_silent req) st
  = Ok () (mkState (zone_map st) (<["p1" := Scenario.c00]> (players st))
             (player_map st))
      [SendJSON (reply_chunk true chunk Scenario.A)].
Proof.
  intros chunk st req.
  by apply (handleGetData_owner Scenario.A Scenario.net_silent st req chunk).
Defined.

Lemma centralReq_Some (serverIP : string) (st : State) (req : Request.t)
    (chunk : Chunk.t) :
  zone_map st !! Request.ChunkID req = Some chunk →
  centralReq serverIP st req
  = Request.central "GET_CHUNK" (Request.ChunkID req) serverIP
      (Z.of_nat (length (Chunk.PlayerList chunk))).
Proof. intros H. unfold centralReq. by rewrite H. Qed.

Lemma centralReq_None (serverIP : string) (st : State) (req : Request.t) :
  zone_map st !! Request.ChunkID req = None →
  centralReq serverIP st req
  = Request.central "GET_CHUNK" (Request.ChunkID req) serverIP 0.
Proof. intros H. unfold centralReq. by rewrite H. Qed.

(** The start of [handleGetData] for a chunk this server does not own:
    the lookup and the player count. *)
Ltac get_data_start Hnot Hio :=
  unfold handleGetData, post_central, merge; run;
  unfold get_zone at 1;
  match goal with
  | |- context [zone_map ?st !! ?c] =>
    let chunk := fresh "chunk" in
    let Hzone := fresh "Hzone" in
    destruct (zone_map st !! c) as [chunk|] eqn:Hzone;
    [ rewrite (centralReq_Some _ _ _ _ Hzone) in *;
      cbn [andb];
      rewrite bool_decide_eq_false_2 by (by apply Hnot)
    | rewrite (centralReq_None _ _ _ Hzone) in *;
      cbn [andb] ];
    rewrite Hio
  end.

(** X12.  [GET_DATA] for a chunk this server does not own when the call
    to the central fails: [http.Post] returned a nil response, whose body
    the handler reads, so the server stops on the nil dereference; the
    request to the central was sent, no reply goes to the client and the
    maps are untouched. *)
Theorem handleGetData_central_unreachable (serverIP : string) (net : Net)
    (st : State) (req : Request.t) :
  not_owner serverIP st (Request.ChunkID req) →
  central_io net (centralReq serverIP st req) = PostErr →
  handle (handleGetData serverIP net req) st
  = Abort NilDereference st [PostCentral (centralReq serverIP st req)].
Proof.
  intros Hnot Hio. by get_data_start Hnot Hio.
Qed.

(** X12 on a server without any chunk. *)
Lemma handleGetData_central_unreachable_witness :
  let net := mkNet (λ _ _, MergeNoAck) (λ _, PostErr) in
  let req := Client.request "GET_DATA" Scenario.p1 Scenario.c00 in
  handle (handleGetData Scenario.A net req) init
  = Abort NilDereference init
      [PostCentral (Request.central "GET_CHUNK" Scenario.c00 Scenario.A 0)].
Proof.
  intros net req.
  apply (handleGetData_central_unreachable Scenario.A net init req).
  - intros chunk Hchunk. vm_compute in Hchunk. discriminate Hchunk.
  - reflexivity.
Defined.

(** X13.  [GET_DATA] for a chunk this server does not own when the
    central's answer has [success = false], which is also what a body that
    is no JSON leaves: the server installs a fresh chunk with itself as
    owner, the data [new chunk], no cells and the player as only player,
    records the player in [players] and [player_map], and replies with
    that chunk and its own address.  A local copy the server held for the
    chunk, its cells included, is replaced by the fresh chunk. *)
Theorem handleGetData_fresh_chunk (serverIP : string) (net : Net) (st : State)
    (req : Request.t) (central_response : Response.t) :
  not_owner serverIP st (Request.ChunkID req) →
  central_io net (centralReq serverIP st req) = PostBody central_response →
  Response.Success central_response = false →
  let chunk_id := Request.ChunkID req in
  let player := Request.Player req in
  let new_chunk :=
    Chunk.mk (ChunkID.IDX chunk_id) (ChunkID.IDY chunk_id) serverIP "new chunk"
      [player] false [] in
  handle (handleGetData serverIP net req) st
  = Ok () (mkState (<[chunk_id := new_chunk]> (zone_map st))
             (<[Player.ID player := chunk_id]> (players st))
             (<[Player.ID player := player]> (player_map st)))
      [PostCentral (centralReq serverIP st req);
       SendJSON (reply_chunk true new_chunk serverIP)].
Proof.
  intros Hnot Hio Hfail chunk_id player new_chunk.
  get_data_start Hnot Hio; by rewrite Hfail.
Qed.

(** X13 on a server that holds a copy of chunk [(0,0)] owned by [B], with
    one cube: the central's answer does not decode, the copy is replaced. *)
Lemma handleGetData_fresh_chunk_witness :
  let chunk := Chunk.mk 0 0 Scenario.B "new chunk" [] true [Scenario.k1] in
  let st := mkState {[Scenario.c00 := chunk]} ∅ ∅ in
  let net := mkNet (λ _ _, MergeNoAck) (λ _, PostBody Response.zero) in
  let req := Client.request "GET_DATA" Scenario.p1 Scenario.c00 in
  let new_chunk := Chunk.mk 0 0 Scenario.A "new chunk" [Scenario.p1] false [] in
  handle (handleGetData Scenario.A net req) st
  = Ok () (mkState (<[Scenario.c00 := new_chunk]> (zone_map st))
             (<["p1" := Scenario.c00]> (players st))
             (<["p1" := Scenario.p1]> (player_map st)))
      [PostCentral (centralReq Scenario.A st req);
       SendJSON (reply_chunk true new_chunk Scenario.A)].
Proof.
  intros chunk st net req new_chunk.
  apply (handleGetData_fresh_chunk Scenario.A net st req Response.zero).
  - intros ch Hch. vm_compute in Hch. injection Hch as <-. discriminate.
  - reflexivity.
  - reflexivity.
Defined.

(** X14.  [GET_DATA] for a chunk the server holds no copy of when the
    central names another server: the server sends that owner a [MERGE]
    whose chunk is the zero chunk with the player as only player and, once
    it is acknowledged, redirects the client to the owner; it then stores
    the chunk of its reply, which is the zero chunk, so from now on it
    holds an empty copy of the chunk.  [players] and [player_map] are
    untouched. *)
Theorem handleGetData_redirects_stranger (serverIP : string) (net : Net)
    (st : State) (req : Request.t) (central_response ack : Response.t) :
  let chunk_id := Request.ChunkID req in
  let owner := Response.Message central_response in
  let merge_req :=
    Request.merge chunk_id (Chunk.set_PlayerList [Request.Player req] Chunk.zero) in
  zone_map st !! chunk_id = None →
  central_io net (centralReq serverIP st req) = PostBody central_response →
  Response.Success central_response = true →
  owner ≠ serverIP →
  merge_io net merge_req owner = MergeAck ack →
  handle (handleGetData serverIP net req) st
  = Ok () (with_chunk st chunk_id Chunk.zero)
      [PostCentral (centralReq serverIP st req); SendMerge owner merge_req;
       SendJSON (reply true owner)].
Proof.
  intros chunk_id owner merge_req Hzone Hio Hsucc Hown Hmerge.
  assert (Hnot : not_owner serverIP st (Request.ChunkID req)).
  { intros ch Hch. fold chunk_id in Hch. by rewrite Hzone in Hch. }
  get_data_start Hnot Hio; [unfold chunk_id in *; congruence|].
  rewrite Hsucc. cbn [negb andb]. fold owner chunk_id.
  rewrite bool_decide_eq_true_2 by done.
  change (Chunk.set_PlayerList (Chunk.PlayerList Chunk.zero ++ [Request.Player req])
            Chunk.zero)
    with (Chunk.set_PlayerList [Request.Player req] Chunk.zero).
  fold merge_req. by rewrite Hmerge.
Qed.

(** X14 at scenario S4: [B] holds nothing of chunk [(0,0)], the central
    names [A]. *)
Lemma handleGetData_redirects_stranger_witness :
  let net :=
    mkNet (λ _ _, MergeAck (reply true "Merged Chunk"))
          (λ _, PostBody (reply true Scenario.A)) in
  let req := Client.request "GET_DATA" Scenario.p2 Scenario.c00 in
  let merge_req :=
    Request.merge Scenario.c00 (Chunk.set_PlayerList [Scenario.p2] Chunk.zero) in
  handle (handleGetData Scenario.B net req) init
  = Ok () (with_chunk init Scenario.c00 Chunk.zero)
      [PostCentral (centralReq Scenario.B init req);
       SendMerge Scenario.A merge_req; SendJSON (reply true Scenario.A)].
Proof.
  intros net req merge_req.
  apply (handleGetData_redirects_stranger Scenario.B net init req
           (reply true Scenario.A) (reply true "Merged Chunk")).
  - reflexivity.
  - reflexivity.
  - reflexivity.
  - discriminate.
  - reflexivity.
Defined.

(** X15.  [GET_DATA] for a chunk the server holds no copy of when the
    central names this very server: the server adopts the chunk the
    central returned, with the player appended to its player list,
    stores it and replies with it.  The chunk is stored as received: its
    owner address is whatever the central passed on, and the player is
    entered in neither [players] nor [player_map]. *)
Theorem handleGetData_adopts (serverIP : string) (net : Net) (st : State)
    (req : Request.t) (central_response : Response.t) :
  let chunk_id := Request.ChunkID req in
  let received := Response.Chunk central_response in
  let adopted :=
    Chunk.set_PlayerList (Chunk.PlayerList received ++ [Request.Player req])
      received in
  zone_map st !! chunk_id = None →
  central_io net (centralReq serverIP st req) = PostBody central_response →
  Response.Success central_response = true →
  Response.Message central_response = serverIP →
  handle (handleGetData serverIP net req) st
  = Ok () (with_chunk st chunk_id adopted)
      [PostCentral (centralReq serverIP st req);
       SendJSON (reply_chunk true adopted serverIP)].
Proof.
  intros chunk_id received adopted Hzone Hio Hsucc Hown.
  assert (Hnot : not_owner serverIP st (Request.ChunkID req)).
  { intros ch Hch. fold chunk_id in Hch. by rewrite Hzone in Hch. }
  get_data_start Hnot Hio; [unfold chunk_id in *; congruence|].
  rewrite Hsucc, Hown. cbn [negb andb].
  by rewrite bool_decide_eq_false_2 by (intros H; by apply H).
Qed.

(** X15 at scenario S5: the central hands [B] the chunk [A] gave up. *)
Lemma handleGetData_adopts_witness :
  let received := Chunk.mk 0 0 Scenario.B "new chunk" [] true [Scenario.k1] in
  let net :=
    mkNet (λ _ _, MergeNoAck)
          (λ _, PostBody (Response.mk true received Scenario.B GameData.zero
                            Scenario.B 0)) in
  let req := Client.request "GET_DATA" Scenario.p2 Scenario.c00 in
  let adopted := Chunk.mk 0 0 Scenario.B "new chunk" [Scenario.p2] true [Scenario.k1] in
  handle (handleGetData Scenario.B net req) init
  = Ok () (with_chunk init Scenario.c00 adopted)
      [PostCentral (centralReq Scenario.B init req);
       SendJSON (reply_chunk true adopted Scenario.B)].
Proof.
  intros received net req adopted.
  by apply (handleGetData_adopts Scenario.B net init req
              (Response.mk true received Scenario.B GameData.zero Scenario.B 0)).
Defined.

(** X16.  [GET_DATA] for a chunk of which the server holds a copy that
    names another owner, when the central names this server: the reply
    carries the local copy and this server's address, and the maps are
    exactly as before.  The copy keeps the other owner's address, so the
    next [GET_DATA] for the chunk goes to the central again. *)
Theorem handleGetData_keeps_stale_owner (serverIP : string) (net : Net)
    (st : State) (req : Request.t) (chunk : Chunk.t)
    (central_response : Response.t) :
  zone_map st !! Request.ChunkID req = Some chunk →
  Chunk.ServerIP chunk ≠ serverIP →
  central_io net (centralReq serverIP st req) = PostBody central_response →
  Response.Success central_response = true →
  Response.Message central_response = serverIP →
  handle (handleGetData serverIP net req) st
  = Ok () st [PostCentral (centralReq serverIP st req);
              SendJSON (reply_chunk true chunk serverIP)] ∧
  not_owner serverIP st (Request.ChunkID req).
Proof.
  intros Hzone Hstale Hio Hsucc Hown. split.
  - assert (Hnot : not_owner serverIP st (Request.ChunkID req)).
    { intros ch Hch. rewrite Hzone in Hch. by injection Hch as <-. }
    get_data_start Hnot Hio; [|congruence].
    injection Hzone as ->.
    rewrite Hsucc, Hown. cbn [negb andb].
    rewrite bool_decide_eq_false_2 by (intros H; by apply H).
    cbn [andb].
    rewrite (ServerSpec.get_zone_Some _ _ _ chunk) by done.
    cbn [Response.Chunk reply_chunk app].
    rewrite insert_id by done. by destruct st.
  - intros ch Hch. rewrite Hzone in Hch. by injection Hch as <-.
Qed.

(** X16 on server [A] holding a copy of chunk [(0,0)] that names [B]. *)
Lemma handleGetData_keeps_stale_owner_witness :
  let chunk := Chunk.mk 0 0 Scenario.B "new chunk" [] true [Scenario.k1] in
  let st := mkState {[Scenario.c00 := chunk]} ∅ ∅ in
  let net := mkNet (λ _ _, MergeNoAck) (λ _, PostBody (reply true Scenario.A)) in
  let req := Client.request "GET_DATA" Scenario.p1 Scenario.c00 in
  handle (handleGetData Scenario.A net req) st
  = Ok () st [PostCentral (centralReq Scenario.A st req);
              SendJSON (reply_chunk true chunk Scenario.A)] ∧
  not_owner Scenario.A st Scenario.c00.
Proof.
  intros chunk st net req.
  apply (handleGetData_keeps_stale_owner Scenario.A net st req chunk
           (reply true Scenario.A)).
  - reflexivity.
  - discriminate.
  - reflexivity.
  - reflexivity.
  - reflexivity.
Defined.

(** ** Handoff *)

Lemma handleGetData_leaves_entry (serverIP : string) (net : Net) (st : State)
    (req : Request.t) (st1 : State) (tr1 : list Emit) :
  handle (handleGetData serverIP net req) st = Ok () st1 tr1 →
  is_Some (zone_map st1 !! Request.ChunkID req).
Proof.
  unfold handleGetData, post_central, merge. run. unfold get_zone.
  destruct (zone_map st !! Request.ChunkID req) as [val|] eqn:Hzone;
    cbn [andb negb].
  - destruct (bool_decide (Chunk.ServerIP val = serverIP)).
    { intros [= <- <-]. cbn. by rewrite Hzone. }
    destruct (central_io net _) as [|central_response]; [done|].
    destruct (Response.Success central_response); cbn [negb];
      [|intros [= <- <-]; cbn; by rewrite lookup_insert_eq].
    destruct (bool_decide (Response.Message central_response ≠ serverIP));
      cbn [andb].
    + destruct (merge_io net _ _); try done.
      intros [= <- <-]. cbn. by rewrite lookup_insert_eq.
    + rewrite Hzone. intros [= <- <-]. cbn. by rewrite lookup_insert_eq.
  - destruct (central_io net _) as [|central_response]; [done|].
    destruct (Response.Success central_response); cbn [negb];
      [|intros [= <- <-]; cbn; by rewrite lookup_insert_eq].
    destruct (bool_decide (Response.Message central_response ≠ serverIP));
      cbn [andb].
    + destruct (merge_io net _ _); try done.
      intros [= <- <-]. cbn. by rewrite lookup_insert_eq.
    + intros [= <- <-]. cbn. by rewrite lookup_insert_eq.
Qed.

(** X17.  A [MERGE] that a server handles after a [GET_DATA] of its own
    for the same chunk, which is the order its one receive loop gives to a
    [MERGE] that arrived while the [GET_DATA] was waiting for the
    central, never installs the incoming chunk: the [GET_DATA], whenever
    it ends, leaves an entry for the chunk, so the [MERGE] takes the
    branch for a chunk that is present, appends the incoming players to
    that entry and drops the incoming cells, data and owner address. *)
Theorem merge_after_own_get_data (serverIP : string) (net : Net) (st : State)
    (get m : Request.t) (st1 : State) (tr1 : list Emit) :
  Request.Type_ get = "GET_DATA" →
  Request.Type_ m = "MERGE" →
  Request.ChunkID m = Request.ChunkID get →
  handle (handleGetData serverIP net get) st = Ok () st1 tr1 →
  ∃ held,
    zone_map st1 !! Request.ChunkID get = Some held ∧
    let merged :=
      Chunk.set_PlayerList
        (Chunk.PlayerList held ++ Chunk.PlayerList (Request.Chunk m)) held in
    main_loop serverIP net [Decodes get; Decodes m] st []
    = Ok () (with_chunk st1 (Request.ChunkID get) merged)
        (tr1 ++ [SendJSON (reply true "Merged Chunk")]) ∧
    Chunk.Cells merged = Chunk.Cells held ∧
    Chunk.Data merged = Chunk.Data held ∧
    Chunk.ServerIP merged = Chunk.ServerIP held ∧
    Chunk.IsDirty merged = Chunk.IsDirty held.
Proof.
  intros Hget Hm Hid Hrun.
  destruct (handleGetData_leaves_entry _ _ _ _ _ _ Hrun) as [held Hheld].
  exists held. split; [done|]. split; [|done].
  cbn [main_loop].
  destruct (dispatch_case serverIP net get) as (Hdget & _).
  destruct (dispatch_case serverIP net m) as (_ & _ & _ & _ & _ & _ & _ & Hdm & _).
  rewrite Hdget, Hdm by done. unfold handle in Hrun. rewrite Hrun.
  unfold handleMergeChunk. run. rewrite Hid.
  rewrite (ServerSpec.get_zone_Some _ _ _ _ Hheld). cbn [negb].
  by rewrite ServerSpec.for_range_append.
Qed.

(** X17 at scenario S5, seen from [B]: [B] holds a copy of chunk [(0,0)]
    with two players that names [A], and its [GET_DATA] makes the central
    give the chunk to [B]; [B] keeps its copy as it is.  The [MERGE] of
    [A], which carries the cube [k1] and names [B] as owner, is handled
    next: the copy of [B] still has no cells and still names [A]. *)
Lemma merge_after_own_get_data_witness :
  let net :=
    mkNet (λ _ _, MergeNoAck)
      (λ _, PostBody (Response.mk true Chunk.zero Scenario.B GameData.zero
                        Scenario.B 0)) in
  let held :=
    Chunk.mk 0 0 Scenario.A "new chunk" [Scenario.p1; Scenario.p2] false [] in
  let st := mkState {[Scenario.c00 := held]} ∅ ∅ in
  let get := Client.request "GET_DATA" Scenario.p2 Scenario.c00 in
  let moved := Chunk.mk 0 0 Scenario.B "new chunk" [] true [Scenario.k1] in
  let m := Request.merge Scenario.c00 moved in
  ∃ held',
    zone_map st !! Scenario.c00 = Some held' ∧
    let merged :=
      Chunk.set_PlayerList (Chunk.PlayerList held' ++ []) held' in
    main_loop Scenario.B net [Decodes get; Decodes m] st []
    = Ok () (with_chunk st Scenario.c00 merged)
        ([PostCentral (Request.central "GET_CHUNK" Scenario.c00 Scenario.B 2);
          SendJSON (reply_chunk true held Scenario.B)]
         ++ [SendJSON (reply true "Merged Chunk")]) ∧
    Chunk.Cells merged = Chunk.Cells held' ∧
    Chunk.Data merged = Chunk.Data held' ∧
    Chunk.ServerIP merged = Chunk.ServerIP held' ∧
    Chunk.IsDirty merged = Chunk.IsDirty held'.
Proof.
  intros net held st get moved m.
  apply (merge_after_own_get_data Scenario.B net st get m st).
  - reflexivity.
  - reflexivity.
  - reflexivity.
  - reflexivity.
Defined.

(** ** Reads and the player index *)

(** X18.  [READ_ONLY] never changes the server's maps and sends exactly
    one reply.  The reply is a success carrying the chunk when the caller
    says the chunk is new to it, or the local chunk is dirty, or it has at
    least one player; otherwise it is a failure telling the caller to use
    its copy.  A chunk the server does not hold reads as the zero chunk,
    so the request fails unless the caller said the chunk is new. *)
Theorem handleReadOnly_reads (st : State) (req : Request.t) :
  let chunk := default Chunk.zero (zone_map st !! Request.ChunkID req) in
  ∃ res,
    handle (handleReadOnly req) st = Ok () st [SendJSON res] ∧
    (Response.Success res = true ↔
       Request.IsChunkNew req = true ∨ Chunk.IsDirty chunk = true ∨
       Chunk.PlayerList chunk ≠ []) ∧
    (Response.Success res = true → Response.Chunk res = chunk) ∧
    (Response.Success res = false → res = reply false "Use your local copy") ∧
    (zone_map st !! Request.ChunkID req = None →
       Response.Success res = Request.IsChunkNew req).
Proof.
  intros chunk. unfold handleReadOnly. run.
  destruct (ServerSpec.get_zone_default st [] (Request.ChunkID req)) as [ok ->].
  fold chunk. eexists. split; [reflexivity|].
  assert (Hlen : bool_decide (0 < length (Chunk.PlayerList chunk))%nat = true
                 ↔ Chunk.PlayerList chunk ≠ []).
  { rewrite bool_decide_eq_true. destruct (Chunk.PlayerList chunk); simpl.
    - split; [lia|done].
    - split; [done|lia]. }
  assert (Hcond : Request.IsChunkNew req || Chunk.IsDirty chunk
                  || bool_decide (0 < length (Chunk.PlayerList chunk))%nat = true
                  ↔ Request.IsChunkNew req = true ∨ Chunk.IsDirty chunk = true ∨
                    Chunk.PlayerList chunk ≠ []).
  { rewrite !orb_true_iff, Hlen. tauto. }
  assert (Habsent : zone_map st !! Request.ChunkID req = None →
                    Request.IsChunkNew req || Chunk.IsDirty chunk
                    || bool_decide (0 < length (Chunk.PlayerList chunk))%nat
                    = Request.IsChunkNew req).
  { intros Habs. subst chunk. rewrite Habs. cbn. by rewrite !orb_false_r. }
  destruct (Request.IsChunkNew req || Chunk.IsDirty chunk
            || bool_decide (0 < length (Chunk.PlayerList chunk))%nat) eqn:Hc.
  - split_and!; [by split; intros; [apply Hcond|]|done|done|].
    intros Habs. by rewrite <- Habsent.
  - split_and!; [|done|done|].
    + split; [done|]. intros H. apply Hcond in H. done.
    + intros Habs. by rewrite <- Habsent.
Qed.

(** X19.  [MOVE_PLAYER] followed by [DLT_PLAYER] of the same player leaves
    no trace of the player: both [players] and [player_map] have no entry
    for the id, and they are the original maps when the player was
    unknown before.  Neither request reads or writes [zone_map]: a move
    does not touch any chunk's player list.  Both are answered with a
    success. *)
Theorem move_then_delete_player (serverIP : string) (net : Net) (st : State)
    (move del : Request.t) :
  Player.ID (Request.Player del) = Player.ID (Request.Player move) →
  let id := Player.ID (Request.Player move) in
  ∃ st',
    main_loop serverIP net
      [Decodes (typed "MOVE_PLAYER" move); Decodes (typed "DLT_PLAYER" del)] st []
    = Ok () st' [SendJSON (reply true "Player position updated");
                 SendJSON (reply true "Player deleted")] ∧
    zone_map st' = zone_map st ∧
    players st' = delete id (players st) ∧
    player_map st' = delete id (player_map st) ∧
    (players st !! id = None → player_map st !! id = None → st' = st).
Proof.
  intros Hid id. eexists. split.
  - cbn [main_loop].
    destruct (dispatch_case serverIP net (typed "MOVE_PLAYER" move))
      as (_ & _ & _ & Hmove & _).
    destruct (dispatch_case serverIP net (typed "DLT_PLAYER" del))
      as (_ & _ & _ & _ & _ & Hdel & _).
    rewrite Hmove, Hdel by done.
    unfold handleMovePlayer, handleDeletePlayer, typed. run.
    cbn [Request.Player Request.ChunkID zone_map players player_map app].
    rewrite Hid. fold id. reflexivity.
  - cbn [zone_map players player_map]. split_and!.
    + done.
    + apply delete_insert_eq.
    + apply delete_insert_eq.
    + intros Hp Hm. destruct st as [zm ps pm]. cbn in *.
      rewrite !delete_insert_eq. by rewrite !delete_id.
Qed.

(** X19 for player [p1] on a fresh server. *)
Lemma move_then_delete_player_witness :
  let move := Client.request "" Scenario.p1 Scenario.c00 in
  ∃ st',
    main_loop Scenario.A Scenario.net_acks
      [Decodes (typed "MOVE_PLAYER" move); Decodes (typed "DLT_PLAYER" move)] init []
    = Ok () st' [SendJSON (reply true "Player position updated");
                 SendJSON (reply true "Player deleted")] ∧
    zone_map st' = zone_map init ∧
    players st' = delete "p1" (players init) ∧
    player_map st' = delete "p1" (player_map init) ∧
    (players init !! "p1" = None → player_map init !! "p1" = None → st' = init).
Proof.
  intros move.
  by apply (move_then_delete_player Scenario.A Scenario.net_acks init move move).
Defined.

(** X20.  [UPDATE_DATA] stores the chunk of the request under the chunk id
    of the request, as it is, whatever was there and whatever owner the
    chunk names; a [GET_UPDATES] for that chunk id then returns exactly
    that chunk in [game_data], and changes nothing. *)
Theorem update_then_get_updates (serverIP : string) (net : Net) (st : State)
    (up get : Request.t) :
  Request.ChunkID get = Request.ChunkID up →
  main_loop serverIP net
    [Decodes (typed "UPDATE_DATA" up); Decodes (typed "GET_UPDATES" get)] st []
  = Ok () (with_chunk st (Request.ChunkID up) (Request.Chunk up))
      [SendJSON (reply true "Chunk data updated");
       SendJSON (Response.mk true Chunk.zero EmptyString
                   (GameData.mk (Request.Chunk up)) EmptyString 0)].
Proof.
  intros Hid. cbn [main_loop].
  destruct (dispatch_case serverIP net (typed "UPDATE_DATA" up))
    as (_ & _ & Hup & _).
  destruct (dispatch_case serverIP net (typed "GET_UPDATES" get))
    as (_ & _ & _ & _ & Hget & _).
  rewrite Hup, Hget by done.
  unfold handleUpdateData, handleGetUpdates, typed. run.
  cbn [Request.ChunkID Request.Chunk]. rewrite Hid.
  by rewrite (ServerSpec.get_zone_Some _ _ _ (Request.Chunk up))
    by apply lookup_insert_eq.
Qed.

(** X20 on a fresh server. *)
Lemma update_then_get_updates_witness :
  let chunk := Chunk.mk 0 0 Scenario.B "other" [Scenario.p2] false [Scenario.k1] in
  let up := Request.merge Scenario.c00 chunk in
  main_loop Scenario.A Scenario.net_acks
    [Decodes (typed "UPDATE_DATA" up); Decodes (typed "GET_UPDATES" up)] init []
  = Ok () (with_chunk init Scenario.c00 chunk)
      [SendJSON (reply true "Chunk data updated");
       SendJSON (Response.mk true Chunk.zero EmptyString (GameData.mk chunk)
                   EmptyString 0)].
Proof.
  intros chunk up.
  by apply (update_then_get_updates Scenario.A Scenario.net_acks init up up).
Defined.

(** ** The receive loop *)

Lemma first_match_in_range (cube_id : string) (cells : list Cube.t) (i : nat) :
  first_match cube_id cells 0 = Some i → is_Some (deleteFromList cells i).
Proof.
  intros Hfm.
  destruct (ServerSpec.first_match_Some _ _ _ _ Hfm)
    as (l1 & cube & l2 & -> & _ & _ & ->).
  destruct (ServerSpec.deleteFromList_at l1 l2 cube) as (s & Hs & _).
  by exists s.
Qed.

(** A request of a local type is answered once and never ends on a
    fault; one of an unknown type changes nothing. *)
Lemma dispatch_local (serverIP : string) (net : Net) (req : Request.t)
    (st : State) (tr : list Emit) :
  local_type (Request.Type_ req) = true →
  ∃ st' res, dispatch serverIP net req st tr = Ok () st' (tr ++ [SendJSON res]).
Proof.
  unfold local_type. rewrite andb_true_iff, !negb_true_iff, !bool_decide_eq_false.
  intros [Hget Hfrom]. unfold dispatch.
  rewrite (decide_False (P := Request.Type_ req = "GET_DATA")) by done.
  rewrite (decide_False (P := Request.Type_ req = "FROM_CENTRAL")) by done.
  repeat case_decide;
    unfold handleUpdateData, handleMovePlayer, handleGetUpdates,
      handleDeletePlayer, handleReadOnly, handleMergeChunk, handleAddCube,
      handleDltCube; run;
    try (destruct (ServerSpec.get_zone_default st tr (Request.ChunkID req))
           as [ok ->]);
    try by eexists _, _.
  - destruct ok; by eexists _, _.
  - destruct (first_match _ _ _) as [i|] eqn:Hfm; [|by eexists _, _].
    destruct (first_match_in_range _ _ _ Hfm) as [cells ->]. by eexists _, _.
Qed.

(** X21.  A server that receives only requests of the types it handles
    without talking to another process (every type but [GET_DATA] and
    [FROM_CENTRAL], unknown types included) never stops on a fault: the
    loop reads the whole inbox, skips the datagrams that do not decode and
    sends exactly one reply for each request, in the order of the
    requests. *)
Theorem main_loop_local_never_stops (serverIP : string) (net : Net)
    (inbox : list Datagram) (st : State) (tr : list Emit) :
  forallb local_datagram inbox = true →
  ∃ st' rs,
    main_loop serverIP net inbox st tr = Ok () st' (tr ++ (SendJSON <$> rs)) ∧
    length rs = length (requests inbox).
Proof.
  revert st tr. induction inbox as [|d inbox IH]; intros st tr Hall.
  - exists st, []. cbn. by rewrite app_nil_r.
  - cbn [forallb] in Hall. apply andb_true_iff in Hall as [Hd Hrest].
    destruct d as [|req]; cbn [main_loop].
    + destruct (IH st tr Hrest) as (st' & rs & Hrun & Hlen).
      by exists st', rs.
    + destruct (dispatch_local serverIP net req st tr Hd) as (st1 & res & ->).
      destruct (IH st1 (tr ++ [SendJSON res]) Hrest) as (st' & rs & -> & Hlen).
      exists st', (res :: rs). split.
      * by rewrite <- app_assoc.
      * cbn. by rewrite Hlen.
Qed.

(** X21 on an inbox with a cube placed, garbage, an unknown type and a
    read. *)
Lemma main_loop_local_never_stops_witness :
  let inbox :=
    [Decodes (add_cube Scenario.c00 Scenario.k1); Garbage;
     Decodes (typed "PING" Request.zero);
     Decodes (typed "READ_ONLY" (add_cube Scenario.c00 Scenario.k1))] in
  ∃ st' rs,
    main_loop Scenario.A Scenario.net_silent inbox init []
    = Ok () st' ([] ++ (SendJSON <$> rs)) ∧
    length rs = length (requests inbox).
Proof.
  intros inbox.
  apply (main_loop_local_never_stops Scenario.A Scenario.net_silent inbox init []).
  reflexivity.
Defined.

Section Preserves.
Context (R : State → State → Prop).
Hypothesis R_refl : ∀ st, R st st.
Hypothesis R_trans : ∀ a b c, R a b → R b c → R a c.

Lemma preserves_ret {A} (a : A) : preserves R (mret a).
Proof. intros st tr. apply R_refl. Qed.

Lemma preserves_bind {A B} (m : M A) (k : A → M B) :
  preserves R m → (∀ a, preserves R (k a)) → preserves R (m ≫= k).
Proof.
  intros Hm Hk st tr. unfold mbind, M_bind. specialize (Hm st tr).
  destruct (m st tr) as [a st' tr'|f st' tr']; cbn in *; [|done].
  eapply R_trans; [done|apply Hk].
Qed.

Lemma preserves_panic {A} (f : Fault) : preserves R (panic f : M A).
Proof. intros st tr. apply R_refl. Qed.

Lemma preserves_emit (e : Emit) : preserves R (emit e).
Proof. intros st tr. apply R_refl. Qed.

Lemma preserves_get_zone (c : ChunkID.t) : preserves R (get_zone c).
Proof. intros st tr. unfold get_zone. case_match; apply R_refl. Qed.

Lemma preserves_merge (net : Net) (req : Request.t) (peer_ip : string) :
  preserves R (merge net req peer_ip).
Proof.
  unfold merge. destruct (merge_io net req peer_ip);
    repeat first [apply preserves_bind; [|intros ?] | apply preserves_emit
                 | apply preserves_ret | apply preserves_panic].
Qed.

Lemma preserves_log_Message (merge_res : option Response.t) :
  preserves R (log_Message merge_res).
Proof. destruct merge_res; [apply preserves_ret|apply preserves_panic]. Qed.

Lemma preserves_post_central (net : Net) (req : Request.t) :
  preserves R (post_central net req).
Proof.
  unfold post_central. apply preserves_bind; [apply preserves_emit|].
  intros _. destruct (central_io net req); [apply preserves_panic|apply preserves_ret].
Qed.

(** A computation made of the operations above and of operations that
    keep [R] keeps [R]. *)
Ltac preserves_step :=
  first
    [ apply preserves_ret | apply preserves_panic | apply preserves_emit
    | apply preserves_get_zone | apply preserves_merge
    | apply preserves_log_Message | apply preserves_post_central
    | assumption
    | apply preserves_bind; [|intros ?]
    | match goal with
      | |- preserves _ (match ?x with _ => _ end) => destruct x
      | |- preserves _ (let '(_, _) := ?x in _) => destruct x
      end ].

Hypothesis set_zone_ok : ∀ c chunk, preserves R (set_zone c chunk).
Hypothesis set_players_ok : ∀ id c, preserves R (set_players id c).
Hypothesis register_ok : ∀ id c player {A} (k : M A),
  preserves R k →
  preserves R (set_players id c ≫= λ _, set_player_map id player ≫= λ _, k).
Hypothesis delete_player_ok : ∀ id, preserves R (delete_player id).

Lemma preserves_dispatch (serverIP : string) (net : Net) (req : Request.t) :
  preserves R (dispatch serverIP net req).
Proof.
  unfold dispatch, handleGetData, handleCentralPeerReq, handleUpdateData,
    handleMovePlayer, handleGetUpdates, handleDeletePlayer, handleReadOnly,
    handleMergeChunk, handleAddCube, handleDltCube, sendJSON.
  repeat case_decide;
    repeat first [ apply register_ok | apply set_zone_ok | apply set_players_ok
                 | apply delete_player_ok | preserves_step ].
Qed.

Lemma preserves_main_loop (serverIP : string) (net : Net) (inbox : list Datagram) :
  preserves R (main_loop serverIP net inbox).
Proof.
  induction inbox as [|d inbox IH]; intros st tr; cbn [main_loop].
  - apply R_refl.
  - destruct d as [|req]; [apply IH|].
    pose proof (preserves_dispatch serverIP net req st tr) as Hd.
    destruct (dispatch serverIP net req st tr) as [[] st' tr'|f st' tr'];
      cbn in *; [|done].
    eapply R_trans; [done|apply IH].
Qed.

End Preserves.

(** X22.  Whatever requests arrive and whatever the network does, a fault
    included, the server never drops a chunk: every chunk id that has an
    entry in [zone_map] keeps having one (its content may be replaced). *)
Theorem zone_map_never_shrinks (serverIP : string) (net : Net)
    (inbox : list Datagram) (st : State) (tr : list Emit) :
  dom (zone_map st) ⊆ dom (zone_map (final_state (main_loop serverIP net inbox st tr))).
Proof.
  apply (preserves_main_loop (λ st st', dom (zone_map st) ⊆ dom (zone_map st'))).
  - done.
  - intros a b c Hab Hbc. by etrans.
  - intros c chunk st0 tr0. cbn. apply dom_insert_subseteq.
  - intros id c st0 tr0. done.
  - intros id c player A k Hk st0 tr0.
    exact (Hk (mkState (zone_map st0) (<[id := c]> (players st0))
                 (<[id := player]> (player_map st0))) tr0).
  - intros id st0 tr0. done.
Qed.

(** X23.  Whatever requests arrive and whatever the network does, a fault
    included, the player index stays consistent in one direction: every
    player that has a record in [player_map] has a chunk in [players].
    (The converse does not hold: a [GET_DATA] answered by the owner enters
    the player in [players] only.) *)
Theorem player_index_invariant (serverIP : string) (net : Net)
    (inbox : list Datagram) (st : State) (tr : list Emit) :
  index_ok st →
  index_ok (final_state (main_loop serverIP net inbox st tr)).
Proof.
  apply (preserves_main_loop (λ st st', index_ok st → index_ok st')).
  - done.
  - intros a b c Hab Hbc Ha. by apply Hbc, Hab.
  - intros c chunk st0 tr0. done.
  - intros id c st0 tr0 Hinv id'. cbn. intros Hsome. apply Hinv in Hsome.
    rewrite lookup_insert. case_decide; [by eexists|done].
  - intros id c player A k Hk st0 tr0 Hinv.
    refine (Hk (mkState (zone_map st0) (<[id := c]> (players st0))
                  (<[id := player]> (player_map st0))) tr0 _).
    intros id'. cbn. rewrite !lookup_insert.
    case_decide; [by eexists|apply Hinv].
  - intros id st0 tr0 Hinv id'. cbn. rewrite !lookup_delete.
    case_decide; [by intros []|apply Hinv].
Qed.

(** X23 from the initial maps: a move, then a [GET_DATA] that stops on
    the unreachable central. *)
Lemma player_index_invariant_witness :
  let net := mkNet (λ _ _, MergeNoAck) (λ _, PostErr) in
  let move := Client.request "MOVE_PLAYER" Scenario.p1 Scenario.c00 in
  let get := Client.request "GET_DATA" Scenario.p2 Scenario.c00 in
  index_ok (final_state (main_loop Scenario.A net [Decodes move; Decodes get] init [])).
Proof.
  intros net move get.
  apply (player_index_invariant Scenario.A net [Decodes move; Decodes get] init []).
  intros id [x Hx]. vm_compute in Hx. discriminate Hx.
Defined.

(** ** [FROM_CENTRAL] and the central together *)

(** X24.  [FROM_CENTRAL] ends with a reply exactly when the server keeps
    the chunk (the caller reports fewer players than the chunk has) or the
    [MERGE] it sends is acknowledged.  When it ends, it has sent one
    reply, a success whose player count is the length of the chunk's
    player list before the request, and [players] and [player_map] are
    untouched. *)
Theorem handleCentralPeerReq_replies_iff (net : Net) (st : State)
    (req : Request.t) :
  let chunk := default Chunk.zero (zone_map st !! Request.ChunkID req) in
  let my_count := Z.of_nat (length (Chunk.PlayerList chunk)) in
  let caller_ip := Request.CallerIP req in
  let merge_req := Request.merge (Request.ChunkID req) (yielded caller_ip chunk) in
  (completed (handle (handleCentralPeerReq net req) st) = true ↔
     Request.PlayerCount req < my_count ∨
     ∃ ack, merge_io net merge_req caller_ip = MergeAck ack) ∧
  (∀ st' tr, handle (handleCentralPeerReq net req) st = Ok () st' tr →
     ∃ res, replies tr = [res] ∧
            Response.Success res = true ∧
            Response.PlayerCount res = my_count ∧
            players st' = players st ∧ player_map st' = player_map st).
Proof.
  intros chunk my_count caller_ip merge_req.
  destruct (decide (Request.PlayerCount req < my_count)) as [Hlt|Hge].
  - rewrite (ServerSpec.handleCentralPeerReq_keep net st req) by done.
    split; [split; [by left|done]|].
    intros st' tr [= <- <-]. eexists. by split_and!.
  - rewrite (ServerSpec.handleCentralPeerReq_yield net st req)
      by (fold chunk my_count; lia).
    fold chunk my_count caller_ip merge_req.
    destruct (merge_io net merge_req caller_ip) as [| | |ack] eqn:Hio; cbn.
    + split; [split; [done|intros [?|[? ?]]; [lia|done]]|done].
    + split; [split; [done|intros [?|[? ?]]; [lia|done]]|done].
    + split; [split; [done|intros [?|[? ?]]; [lia|done]]|done].
    + split; [split; [intros _; right; by eexists|done]|].
      intros st' tr [= <- <-]. eexists. by split_and!.
Qed.

(** X29.  First contact, the central and the server together.  A server
    with an address asks the central about a chunk that neither it owns
    nor the registry holds, and the central's reply reaches it: the
    central records the server as owner and the server installs a fresh
    chunk naming itself, so both agree on the owner; the client is told
    the server's address. *)
Theorem first_contact_agrees (peer : Central.Peer) (zone : gmap ChunkID.t string)
    (serverIP : string) (net : Net) (st : State) (req : Request.t)
    (central_response : Response.t) :
  let chunk_id := Request.ChunkID req in
  let asked := Central.handlePeerChunk peer (Some zone)
                 (Central.post (centralReq serverIP st req)) in
  serverIP ≠ EmptyString →
  zone !! chunk_id = None →
  not_owner serverIP st chunk_id →
  asked.2 = Central.JSON central_response →
  central_io net (centralReq serverIP st req) = PostBody central_response →
  ∃ st' res,
    handle (handleGetData serverIP net req) st
    = Ok () st' [PostCentral (centralReq serverIP st req); SendJSON res] ∧
    Central.owner_of asked.1 chunk_id = Some serverIP ∧
    Chunk.ServerIP <$> zone_map st' !! chunk_id = Some serverIP ∧
    Response.Success res = true ∧
    Response.Message res = serverIP.
Proof.
  intros chunk_id asked Hip Hzone Hnot Hasked Hio.
  assert (Hfirst : asked = (Some (<[chunk_id := serverIP]> zone),
                            Central.JSON Response.zero)).
  { subst asked. by rewrite CentralSpec.handlePeerChunk_absent. }
  rewrite Hfirst in Hasked |- *. cbn [snd fst] in *. injection Hasked as <-.
  eexists _, _. split.
  { get_data_start Hnot Hio; cbn [Response.Success Response.zero negb];
      reflexivity. }
  split_and!.
  - apply lookup_insert_eq.
  - cbn [zone_map]. fold chunk_id. by rewrite lookup_insert_eq.
  - done.
  - done.
Qed.

(** X29 at scenario S3: [B] asks for chunk [(10,10)], unknown to the
    central. *)
Lemma first_contact_agrees_witness :
  let c := ChunkID.mk 10 10 in
  let net := mkNet (λ _ _, MergeNoAck) (λ _, PostBody Response.zero) in
  let req := Client.request "GET_DATA" Scenario.p2 c in
  ∃ st' res,
    handle (handleGetData Scenario.B net req) init
    = Ok () st' [PostCentral (centralReq Scenario.B init req); SendJSON res] ∧
    Central.owner_of
      (Central.handlePeerChunk (λ _ _, Central.PeerSendErr) (Some ∅)
         (Central.post (centralReq Scenario.B init req))).1 c
    = Some Scenario.B ∧
    Chunk.ServerIP <$> zone_map st' !! c = Some Scenario.B ∧
    Response.Success res = true ∧
    Response.Message res = Scenario.B.
Proof.
  intros c net req.
  apply (first_contact_agrees (λ _ _, Central.PeerSendErr) ∅ Scenario.B net init
           req Response.zero).
  - discriminate.
  - reflexivity.
  - intros chunk Hchunk. vm_compute in Hchunk. discriminate Hchunk.
  - reflexivity.
  - reflexivity.
Defined.

(** ** The client against the server *)

(** Whatever [handleGetData] sends to the client is a success, and it
    sends at most one reply. *)
Lemma handleGetData_replies (serverIP : string) (net : Net) (st : State)
    (req : Request.t) :
  let tr := final_trace (handle (handleGetData serverIP net req) st) in
  Forall (λ res, Response.Success res = true) (replies tr) ∧
  (length (replies tr) ≤ 1)%nat.
Proof.
  unfold handleGetData, post_central, merge. run. unfold get_zone.
  destruct (zone_map st !! Request.ChunkID req) as [val|]; cbn [andb negb].
  - destruct (bool_decide (Chunk.ServerIP val = serverIP)).
    { cbn. split; [by repeat constructor|lia]. }
    destruct (central_io net _) as [|central_response];
      [cbn; split; [constructor|lia]|].
    destruct (Response.Success central_response); cbn [negb];
      [|cbn; split; [by repeat constructor|lia]].
    destruct (bool_decide (Response.Message central_response ≠ serverIP));
      cbn [andb].
    + destruct (merge_io net _ _); cbn; (split; [by repeat constructor|lia]).
    + rewrite lookup_insert_eq || idtac.
      destruct (zone_map st !! Request.ChunkID req);
        cbn; (split; [by repeat constructor|lia]).
  - destruct (central_io net _) as [|central_response];
      [cbn; split; [constructor|lia]|].
    destruct (Response.Success central_response); cbn [negb];
      [|cbn; split; [by repeat constructor|lia]].
    destruct (bool_decide (Response.Message central_response ≠ serverIP));
      cbn [andb].
    + destruct (merge_io net _ _); cbn; (split; [by repeat constructor|lia]).
    + cbn. split; [by repeat constructor|lia].
Qed.

(** X26.  The client never follows a redirect.  Every reply
    [handleGetData] sends has [success = true], also the one that names
    another server as owner, and [Initialize] changes server only on a
    reply with [success = false]: whatever reply of [handleGetData] reaches
    the client, [Initialize] keeps the server address it had and takes the
    requested chunk as current, and [HandleChunkTransition] reports the
    transition as done. *)
Theorem client_never_follows_redirect (serverIP : string) (net : Net)
    (st : State) (send : Client.Send) (dial : string → bool)
    (ps : Client.PlayerState) (res : Response.t) :
  let req := Client.request "GET_DATA" (Client.player ps) (Client.CalculateChunkID ps) in
  res ∈ replies (final_trace (handle (handleGetData serverIP net req) st)) →
  send req = Some res →
  let entered :=
    Client.mkPlayerState (Client.player ps) (Client.CalculateChunkID ps)
      (Client.serverIP ps) in
  Client.Initialize send dial ps = Some entered ∧
  (Client.HandleChunkTransition send ps).2 = true ∧
  (Client.CalculateChunkID ps ≠ Client.currentChunk ps →
     (Client.HandleChunkTransition send ps).1 = entered).
Proof.
  intros req Hin Hsend entered.
  destruct (handleGetData_replies serverIP net st req) as [Hall _].
  rewrite Forall_forall in Hall. specialize (Hall res Hin).
  unfold Client.Initialize, Client.HandleChunkTransition.
  fold req. rewrite Hsend, Hall. split_and!.
  - done.
  - by case_decide.
  - intros Hne. by rewrite decide_True by done.
Qed.

(** X26 at scenario S4: [B] redirects the client of [p2] to [A]; the
    client stays with [B]. *)
Lemma client_never_follows_redirect_witness :
  let net :=
    mkNet (λ _ _, MergeAck (reply true "Merged Chunk"))
          (λ _, PostBody (reply true Scenario.A)) in
  let ps := Client.mkPlayerState Scenario.p2 (ChunkID.mk 1 1) Scenario.B in
  Client.Initialize (λ _, Some (reply true Scenario.A)) (λ _, true) ps
  = Some (Client.mkPlayerState Scenario.p2 Scenario.c00 Scenario.B).
Proof.
  intros net ps.
  refine (proj1 (client_never_follows_redirect Scenario.B net init
            (λ _, Some (reply true Scenario.A)) (λ _, true) ps
            (reply true Scenario.A) _ _)).
  - vm_compute. by repeat constructor.
  - reflexivity.
Defined.

End ServerMore.

(** * Properties of the player client *)

Module ClientMore.
Import Client.

Lemma wrap64_small (z : Z) : - 2 ^ 63 ≤ z < 2 ^ 63 → wrap64 z = z.
Proof. intros Hz. unfold wrap64. rewrite Z.mod_small by lia. lia. Qed.

(** X27.  After [MoveRandomly] both coordinates of the player lie between
    0 and 500, whatever they were before, the overflow of the increment
    included, so the chunk id the client computes next lies between 0 and
    15 on both axes; a coordinate that was between 0 and 499 has grown by
    one, and the player's other fields, the current chunk and the server
    address are untouched. *)
Theorem MoveRandomly_bounds (ps : PlayerState) :
  let ps' := MoveRandomly ps in
  let x := Player.PosX (player ps) in
  let y := Player.PosY (player ps) in
  let x' := Player.PosX (player ps') in
  let y' := Player.PosY (player ps') in
  (0 ≤ x' ≤ 500)%Z ∧ (0 ≤ y' ≤ 500)%Z ∧
  (0 ≤ ChunkID.IDX (CalculateChunkID ps') ≤ 15)%Z ∧
  (0 ≤ ChunkID.IDY (CalculateChunkID ps') ≤ 15)%Z ∧
  ((0 ≤ x < 500)%Z → x' = x + 1) ∧
  ((0 ≤ y < 500)%Z → y' = y + 1) ∧
  set_pos x y (player ps') = player ps ∧
  currentChunk ps' = currentChunk ps ∧
  serverIP ps' = serverIP ps.
Proof.
  intros ps' x y x' y'.
  assert (Hx : (0 ≤ x' ≤ 500)%Z).
  { subst x' ps'. unfold MoveRandomly. cbn. repeat case_decide; lia. }
  assert (Hy : (0 ≤ y' ≤ 500)%Z).
  { subst y' ps'. unfold MoveRandomly. cbn. repeat case_decide; lia. }
  split_and!; try done; try lia.
  - unfold CalculateChunkID. cbn [ChunkID.IDX]. fold x'. apply Z.quot_pos; lia.
  - unfold CalculateChunkID. cbn [ChunkID.IDX]. fold x'.
    pose proof (Z.quot_lt_upper_bound x' 32 16). lia.
  - unfold CalculateChunkID. cbn [ChunkID.IDY]. fold y'. apply Z.quot_pos; lia.
  - unfold CalculateChunkID. cbn [ChunkID.IDY]. fold y'.
    pose proof (Z.quot_lt_upper_bound y' 32 16). lia.
  - intros Hr. subst x' ps'. unfold MoveRandomly. cbn. fold x.
    rewrite wrap64_small by lia. repeat case_decide; lia.
  - intros Hr. subst y' ps'. unfold MoveRandomly. cbn. fold y.
    rewrite wrap64_small by lia. repeat case_decide; lia.
  - subst ps' x y. unfold MoveRandomly, set_pos. cbn. by destruct (player ps).
Qed.

(** X28.  [CalculateChunkID] divides with truncation toward zero.  For a
    coordinate that is not negative the chunk index [c] is the one whose
    span [32c .. 32c+31] holds the coordinate; for a negative coordinate
    the span is [32c-31 .. 32c], so the coordinates from -31 to 31 all
    get index 0 and chunk 0 is 63 wide on each axis. *)
Theorem CalculateChunkID_span (ps : PlayerState) :
  let x := Player.PosX (player ps) in
  let y := Player.PosY (player ps) in
  let c := CalculateChunkID ps in
  ((0 ≤ x)%Z → (32 * ChunkID.IDX c ≤ x < 32 * ChunkID.IDX c + 32)%Z) ∧
  ((x ≤ 0)%Z → (32 * ChunkID.IDX c - 32 < x ≤ 32 * ChunkID.IDX c)%Z) ∧
  ((0 ≤ y)%Z → (32 * ChunkID.IDY c ≤ y < 32 * ChunkID.IDY c + 32)%Z) ∧
  ((y ≤ 0)%Z → (32 * ChunkID.IDY c - 32 < y ≤ 32 * ChunkID.IDY c)%Z) ∧
  (ChunkID.IDX c = 0 ↔ (-32 < x < 32)%Z) ∧
  (ChunkID.IDY c = 0 ↔ (-32 < y < 32)%Z).
Proof.
  intros x y c. subst c. unfold CalculateChunkID. cbn [ChunkID.IDX ChunkID.IDY].
  fold x y.
  assert (Hspan : ∀ v : Z,
    ((0 ≤ v)%Z → (32 * Z.quot v 32 ≤ v < 32 * Z.quot v 32 + 32)%Z) ∧
    ((v ≤ 0)%Z → (32 * Z.quot v 32 - 32 < v ≤ 32 * Z.quot v 32)%Z) ∧
    (Z.quot v 32 = 0 ↔ (-32 < v < 32)%Z)).
  { intros v.
    pose proof (Z.quot_rem' v 32) as Hqr.
    split_and!.
    - intros Hv. pose proof (Z.rem_bound_pos v 32 Hv ltac:(lia)). lia.
    - intros Hv. pose proof (Z.rem_bound_pos (- v) 32 ltac:(lia) ltac:(lia)).
      pose proof (Z.rem_opp_l' v 32). lia.
    - rewrite Z.quot_small_iff by lia. rewrite Z.abs_lt.
      change (Z.abs 32) with 32. lia. }
  destruct (Hspan x) as (? & ? & ?), (Hspan y) as (? & ? & ?).
  by split_and!.
Qed.

End ClientMore.

(** * The owner's reply on its way to the central *)

Module Exchange.
Import Central Server ServerLoop Wire.
Local Open Scope list_scope.

(** The central's decision on a reply that does not fit its buffer. *)
Lemma handlePeerChunk_long_reply (net : Net) (st st' : State)
    (len : Response.t → nat) (zone : gmap ChunkID.t string) (req : Request.t)
    (owner : string) (res : Response.t) :
  Request.CallerIP req ≠ EmptyString →
  zone !! Request.ChunkID req = Some owner →
  answer net st (from_central req) = Some (st', res) →
  (1024 < len res)%nat →
  handlePeerChunk (owner_exchange net st len) (Some zone) (post req)
  = fallback zone (Request.ChunkID req) owner req.
Proof.
  intros Hip Hown Hans Hlen.
  rewrite (CentralSpec.handlePeerChunk_present _ zone req owner Hip Hown).
  unfold owner_exchange. rewrite Hans. unfold read_reply.
  by rewrite decide_False by lia.
Qed.

(** The central's decision on an owner that sends no reply. *)
Lemma handlePeerChunk_no_reply (net : Net) (st : State)
    (len : Response.t → nat) (zone : gmap ChunkID.t string) (req : Request.t)
    (owner : string) :
  Request.CallerIP req ≠ EmptyString →
  zone !! Request.ChunkID req = Some owner →
  answer net st (from_central req) = None →
  handlePeerChunk (owner_exchange net st len) (Some zone) (post req)
  = fallback zone (Request.ChunkID req) owner req.
Proof.
  intros Hip Hown Hans.
  rewrite (CentralSpec.handlePeerChunk_present _ zone req owner Hip Hown).
  unfold owner_exchange. by rewrite Hans.
Qed.

(** C1, at an owner with more players than the caller whose reply is
    longer than the central's buffer.  [A] owns chunk [(0,0)] with seven
    players and [B] asks with one.  [A] keeps the chunk and replies with
    its count, seven, and the chunk; that reply is a datagram of more than
    1024 bytes, so the central reads a cut text, fails to decode it and
    takes the degraded decision: the registry entry becomes [B] and the
    reply names [B], although the owner's count is the greater one. *)
Theorem handlePeerChunk_truncated_reply :
  let chunk := Chunk.mk 0 0 Scenario.A "new chunk" seven_players false [] in
  let st := mkState {[Scenario.c00 := chunk]} ∅ ∅ in
  let req := Request.central "GET_CHUNK" Scenario.c00 Scenario.B 1 in
  let zone : gmap ChunkID.t string := {[Scenario.c00 := Scenario.A]} in
  let res := Response.mk true chunk EmptyString GameData.zero EmptyString 7 in
  answer Scenario.net_silent st (from_central req) = Some (st, res) ∧
  Request.PlayerCount req < Response.PlayerCount res ∧
  (1024 < String.length (json_Response res))%nat ∧
  (∀ len : Response.t → nat,
     (String.length (json_Response res) ≤ len res)%nat →
     handlePeerChunk (owner_exchange Scenario.net_silent st len) (Some zone)
       (post req)
     = (Some {[Scenario.c00 := Scenario.B]},
        JSON (Response.mk true Chunk.zero Scenario.B GameData.zero Scenario.B 0))).
Proof.
  intros chunk st req zone res.
  assert (Hans : answer Scenario.net_silent st (from_central req) = Some (st, res))
    by by vm_compute.
  assert (Hsize : (1024 < String.length (json_Response res))%nat)
    by (vm_compute; lia).
  split_and!; [done|done|done|].
  intros len Hlen.
  rewrite (handlePeerChunk_long_reply Scenario.net_silent st st len zone req
             Scenario.A res); [|discriminate|reflexivity|done|lia].
  unfold fallback. rewrite decide_True by done.
  unfold zone, req. cbn [Request.ChunkID Request.CallerIP Request.central].
  by rewrite insert_singleton_eq.
Qed.

(** X25.  Where the central and the owner of a chunk stand after a
    [PEER_CHUNK] exchange, the owner's reply being a datagram at least as
    long as its JSON text.  An owner with more players than the caller
    keeps its maps and replies; the central keeps it in the registry when
    the reply fits into 1024 bytes, but when the reply is longer a caller
    with a positive count gets the registry entry while the owner still
    holds the chunk as its own.  An owner with no more players than the
    caller stores the chunk with the caller as owner and, its [MERGE]
    unacknowledged, sends no reply; the central then gives the entry to a
    caller with a positive count and keeps the owner, which has given the
    chunk up, for a caller without one. *)
Theorem central_and_owner_after_exchange (net : Net) (st : State)
    (len : Response.t → nat) (zone : gmap ChunkID.t string) (req : Request.t)
    (owner : string) :
  Request.CallerIP req ≠ EmptyString →
  zone !! Request.ChunkID req = Some owner →
  (∀ res, (String.length (json_Response res) ≤ len res)%nat) →
  let chunk_id := Request.ChunkID req in
  let caller_ip := Request.CallerIP req in
  let chunk := default Chunk.zero (zone_map st !! chunk_id) in
  let my_count := Z.of_nat (length (Chunk.PlayerList chunk)) in
  let kept := Response.mk true chunk EmptyString GameData.zero EmptyString my_count in
  let merge_req := Request.merge chunk_id (yielded caller_ip chunk) in
  let registry :=
    (handlePeerChunk (owner_exchange net st len) (Some zone) (post req)).1 in
  let st' := owner_after net st (from_central req) in
  (Request.PlayerCount req < my_count →
     st' = st ∧
     ((len kept ≤ 1024)%nat → registry = Some zone) ∧
     ((1024 < String.length (json_Response kept))%nat →
        (0 < Request.PlayerCount req →
           registry = Some (<[chunk_id := caller_ip]> zone)) ∧
        ((Request.PlayerCount req ≤ 0)%Z → registry = Some zone))) ∧
  ((my_count ≤ Request.PlayerCount req)%Z →
   (∀ ack, merge_io net merge_req caller_ip ≠ MergeAck ack) →
     Chunk.ServerIP <$> zone_map st' !! chunk_id = Some caller_ip ∧
     replies (final_trace (handle (handleCentralPeerReq net (from_central req)) st))
     = [] ∧
     (0 < Request.PlayerCount req →
        registry = Some (<[chunk_id := caller_ip]> zone)) ∧
     ((Request.PlayerCount req ≤ 0)%Z → registry = Some zone)).
Proof.
  intros Hip Hown Hlen chunk_id caller_ip chunk my_count kept merge_req registry st'.
  subst registry st'. unfold owner_after. split.
  - intros Hlt.
    pose proof (ServerSpec.handleCentralPeerReq_keep net st (from_central req) Hlt)
      as Hkeep.
    change (Request.ChunkID (from_central req)) with chunk_id in Hkeep.
    fold chunk my_count kept in Hkeep.
    assert (Hans : answer net st (from_central req) = Some (st, kept)).
    { unfold answer. by rewrite Hkeep. }
    rewrite Hkeep. split_and!.
    + done.
    + intros Hfits.
      rewrite (CentralSpec.handlePeerChunk_present _ zone req owner Hip Hown).
      unfold owner_exchange. rewrite Hans. unfold read_reply.
      rewrite decide_True by done. cbn [Response.PlayerCount kept].
      by rewrite decide_False by lia.
    + intros Hlong.
      rewrite (handlePeerChunk_long_reply net st st len zone req owner kept);
        [|done|done|done|specialize (Hlen kept); lia].
      unfold fallback. split; intros Hcaller.
      * by rewrite decide_True by lia.
      * by rewrite decide_False by lia.
  - intros Hle Hnoack.
    pose proof (ServerSpec.handleCentralPeerReq_yield net st (from_central req))
      as Hyield.
    cbn zeta in Hyield.
    change (Request.ChunkID (from_central req)) with chunk_id in Hyield.
    change (Request.CallerIP (from_central req)) with caller_ip in Hyield.
    change (Request.PlayerCount (from_central req)) with (Request.PlayerCount req)
      in Hyield.
    fold chunk my_count merge_req in Hyield. specialize (Hyield Hle).
    assert (Hans : answer net st (from_central req) = None).
    { unfold answer. rewrite Hyield.
      destruct (merge_io net merge_req caller_ip) as [| | |ack] eqn:Hio; try done.
      by destruct (Hnoack ack). }
    assert (Hfallback :
      handlePeerChunk (owner_exchange net st len) (Some zone) (post req)
      = fallback zone chunk_id owner req)
      by by apply handlePeerChunk_no_reply.
    rewrite Hfallback, Hyield.
    destruct (merge_io net merge_req caller_ip) as [| | |ack] eqn:Hio;
      [| | |by destruct (Hnoack ack)];
      cbn [final_state final_trace replies omap with_chunk zone_map];
      (split_and!;
       [ by rewrite lookup_insert_eq
       | done
       | intros Hc; unfold fallback; by rewrite decide_True by lia
       | intros Hc; unfold fallback; by rewrite decide_False by lia ]).
Qed.

(** X25 at scenario S5 with the [MERGE] left unacknowledged: [A] gives
    chunk [(0,0)] up to [B] and sends no reply, the central gives the
    entry to [B], which reported two players. *)
Lemma central_and_owner_after_exchange_witness :
  let chunk := Chunk.mk 0 0 Scenario.A "new chunk" [] false [Scenario.k1] in
  let st := mkState {[Scenario.c00 := chunk]} ∅ ∅ in
  let req := Request.central "GET_CHUNK" Scenario.c00 Scenario.B 2 in
  let zone : gmap ChunkID.t string := {[Scenario.c00 := Scenario.A]} in
  let len := λ res, String.length (json_Response res) in
  Chunk.ServerIP
    <$> zone_map (owner_after Scenario.net_silent st (from_central req))
        !! Scenario.c00
  = Some Scenario.B ∧
  (handlePeerChunk (owner_exchange Scenario.net_silent st len) (Some zone)
     (post req)).1
  = Some (<[Scenario.c00 := Scenario.B]> zone).
Proof.
  intros chunk st req zone len.
  destruct (central_and_owner_after_exchange Scenario.net_silent st len zone req
              Scenario.A) as [_ Hyield].
  - discriminate.
  - reflexivity.
  - intros res. reflexivity.
  - destruct Hyield as (Hcopy & _ & Hpos & _).
    + by vm_compute.
    + intros ack. discriminate.
    + split; [exact Hcopy|]. apply Hpos. reflexivity.
Defined.

End Exchange.
